(** * Meeting routes of the Arthankur backend

    A shallow embedding of the Express router of the meeting routes
    (seven handlers over the Mongoose models [Meeting] and [User]) and the
    properties of the meeting lifecycle proved about it, followed by the
    connection bootstrap of config/db.js as a trace of its effects.

    Modelling conventions.
    - The [Meeting] collection is a finite map from document ids to
      documents, the [User] collection a list of documents.  A handler is a
      function from the store to a response and a new store.
    - A JavaScript value that may be [undefined] is an [option]; a request
      body field is an optional string.
    - [Date.now()], [Math.random().toString(36)], the [_id] Mongoose gives
      to a new document and its creation timestamp are not computed by the
      handlers: they are read from an environment record [Env].
    - The calls into Mongoose are taken to resolve, except where the
      request itself can make them reject: [save] of a new document, on
      the schema validators and the unique index on [_id], and [findOne]
      by [_id], on a meeting id that does not cast to the type of [_id].
      The [catch] branches are reached only through those.
    - [req.user.id] is set by the [auth] middleware from a verified token;
      it is taken to be the id of a user, which casts. *)

From Stdlib Require Import Ascii.
From stdpp Require Import gmap strings list fin_maps sorting pretty.

Open Scope string_scope.

(** ** Documents *)

(** A document of the [User] collection, with the fields the routes read. *)
Record User := {
  user_id : string;
  user_name : string;
  user_email : string;
  user_userType : string
}.

(** A document of the [Meeting] collection.  Its [_id] is the key under
    which the store holds it. *)
Record Meeting := {
  requestedBy : string;
  requestedTo : string;
  title : option string;
  description : option string;
  dateTime : option string;
  duration : option string;
  status : option string;
  meetingLink : option string;
  virtualPitchRoomId : option string;
  createdAt : N
}.

Definition set_status (v : option string) (m : Meeting) : Meeting :=
  {| requestedBy := requestedBy m; requestedTo := requestedTo m;
     title := title m; description := description m;
     dateTime := dateTime m; duration := duration m;
     status := v;
     meetingLink := meetingLink m;
     virtualPitchRoomId := virtualPitchRoomId m;
     createdAt := createdAt m |}.

Definition set_meetingLink (v : option string) (m : Meeting) : Meeting :=
  {| requestedBy := requestedBy m; requestedTo := requestedTo m;
     title := title m; description := description m;
     dateTime := dateTime m; duration := duration m;
     status := status m;
     meetingLink := v;
     virtualPitchRoomId := virtualPitchRoomId m;
     createdAt := createdAt m |}.

Definition set_virtualPitchRoomId (v : option string) (m : Meeting) : Meeting :=
  {| requestedBy := requestedBy m; requestedTo := requestedTo m;
     title := title m; description := description m;
     dateTime := dateTime m; duration := duration m;
     status := status m;
     meetingLink := meetingLink m;
     virtualPitchRoomId := v;
     createdAt := createdAt m |}.

(** The two collections. *)
Record Store := {
  meetings : gmap string Meeting;
  users : list User
}.

Definition with_meetings (ms : gmap string Meeting) (st : Store) : Store :=
  {| meetings := ms; users := users st |}.

(** ** JavaScript helpers *)

(** [if (v)] on an optional string: [undefined] and the empty string are
    falsy. *)
Definition truthy (v : option string) : bool :=
  match v with
  | Some s => bool_decide (s ≠ "")
  | None => false
  end.

(** [arr.includes(v)] for an array of strings. *)
Definition includes (arr : list string) (v : option string) : bool :=
  match v with
  | Some s => bool_decide (s ∈ arr)
  | None => false
  end.

(** [s.substring(start, end)] and [s.substring(start)] ([end_ = None]):
    both indices are clamped to the length and swapped when out of order. *)
Definition js_substring (s : string) (start : nat) (end_ : option nat) : string :=
  let len := String.length s in
  let b := start `min` len in
  let e := match end_ with Some e => e `min` len | None => len end in
  String.substring (b `min` e) ((b `max` e) - (b `min` e)) s.

(** A value interpolated in a template literal. *)
Definition js_template (v : option string) : string :=
  match v with
  | Some s => s
  | None => "undefined"
  end.

(** ** Environment *)

(** What a handler reads from the outside while it runs. *)
Record Env := {
  new_id : string;        (* the _id of [new Meeting(...)] *)
  timestamp : N;          (* the createdAt of a new document *)
  random_link : string;   (* Math.random().toString(36), meeting link *)
  date_now : N;           (* Date.now() *)
  random_pitch : string   (* Math.random().toString(36), pitch room id *)
}.

(** [`https://meet.google.com/${Math.random().toString(36).substring(7)}`] *)
Definition gen_meetingLink (env : Env) : string :=
  "https://meet.google.com/" +:+ js_substring (random_link env) 7 None.

(** [`pitch-${Date.now()}-${Math.random().toString(36).substring(2, 8)}`] *)
Definition gen_virtualPitchRoomId (env : Env) : string :=
  "pitch-" +:+ pretty (date_now env) +:+ "-"
    +:+ js_substring (random_pitch env) 2 (Some 8).

(** ** Responses *)

(** A populated participant: [populate(path, 'name email')] keeps [_id],
    [name] and [email]. *)
Record UserRef := {
  ref_id : string;
  ref_name : string;
  ref_email : string
}.

(** A meeting as serialised in a response, participants populated
    ([None] when the referenced user does not exist). *)
Record MeetingView := {
  view_id : string;
  view_doc : Meeting;
  view_requestedBy : option UserRef;
  view_requestedTo : option UserRef
}.

Record PitchInfo := {
  pitch_meetingId : string;
  pitch_title : option string;
  pitch_virtualPitchRoomId : option string;
  pitch_virtualPitchUrl : string
}.

Record UserInfo := {
  info_id : string;
  info_name : string;
  info_email : string;
  info_userType : string
}.

Inductive Body :=
| BMeetings (l : list MeetingView)
| BMeeting (m : MeetingView)
| BPitch (p : PitchInfo)
| BUsers (l : list UserInfo)
| BMessage (message : string).

Record Response := {
  code : N;
  body : Body
}.

Definition json (b : Body) : Response := {| code := 200; body := b |}.
Definition status_json (c : N) (b : Body) : Response := {| code := c; body := b |}.

(** ** Queries *)

(** [{ $or: [{ requestedBy: caller }, { requestedTo: caller }] }] *)
Definition participant (caller : string) (m : Meeting) : Prop :=
  requestedBy m = caller ∨ requestedTo m = caller.

Global Instance participant_dec caller m : Decision (participant caller m).
Proof. unfold participant. apply _. Defined.

(** [.sort({ createdAt: -1 })]: newest first. *)
Definition newer_first (a b : string * Meeting) : Prop :=
  (createdAt b.2 ≤ createdAt a.2)%N.

Global Instance newer_first_dec : RelDecision newer_first.
Proof. intros a b. unfold newer_first. apply _. Defined.

(** [Meeting.find(filter).sort({ createdAt: -1 })] *)
Definition Meeting_find_sorted (P : Meeting → Prop) `{∀ m, Decision (P m)}
    (ms : gmap string Meeting) : list (string * Meeting) :=
  merge_sort newer_first (filter (λ d, P d.2) (map_to_list ms)).

(** What awaiting a Mongoose call gives: the value the promise resolves
    to, or a rejection, which takes the handler to its [catch] block. *)
Inductive Outcome (A : Type) :=
| Resolves (a : A)
| Rejects.
Global Arguments Resolves {A} a.
Global Arguments Rejects {A}.

(** [Meeting.findOne({ _id: id, ...filter })].  Mongoose casts [id] to the
    type of [_id] before it queries, and the promise rejects when the cast
    fails.  POST / never sets [_id], so the type is the one Mongoose gives
    the schema; which strings cast to it is the parameter [casts].  The
    store holds each document under the rendering of its [_id], which
    casts: the cast can only fail on an id that is not a key. *)
Definition Meeting_findOne (casts : string → bool) (id : string)
    (P : Meeting → Prop) `{∀ m, Decision (P m)} (ms : gmap string Meeting)
    : Outcome (option Meeting) :=
  match ms !! id with
  | Some m => Resolves (if decide (P m) then Some m else None)
  | None => if casts id then Resolves None else Rejects
  end.

(** [User.findOne({ email })]: the first document with that email. *)
Definition User_findOne_email (email : string) (us : list User) : option User :=
  List.find (λ u, bool_decide (user_email u = email)) us.

(** The user a populated path resolves to. *)
Definition User_findById (id : string) (us : list User) : option User :=
  List.find (λ u, bool_decide (user_id u = id)) us.

Definition populate_ref (us : list User) (id : string) : option UserRef :=
  (λ u, {| ref_id := user_id u; ref_name := user_name u;
           ref_email := user_email u |}) <$> User_findById id us.

(** [.populate('requestedBy', 'name email').populate('requestedTo', 'name email')] *)
Definition populate (us : list User) (id : string) (m : Meeting) : MeetingView :=
  {| view_id := id; view_doc := m;
     view_requestedBy := populate_ref us (requestedBy m);
     view_requestedTo := populate_ref us (requestedTo m) |}.

(** [meeting.save()] on a document loaded from the store. *)
Definition Meeting_save (id : string) (m : Meeting) (st : Store) : Store :=
  with_meetings (<[id := m]> (meetings st)) st.

(** Modelled from the spec: the default of [status] in the schema of
    models/Meeting.js, which is not among the sources ("status:
    enumeration {pending, accepted, declined}; initial value pending"). *)
Definition default_status : option string := Some "pending".

(** ** The route handlers *)

Section Routes.

(** The validators of the Meeting schema that [save] runs on a new
    document (required fields, casts).  models/Meeting.js is not among the
    sources, so they are a parameter of the development. *)
Variable validate : Meeting → bool.

(** Whether a string casts to the type of the [_id] of a meeting
    (see [Meeting_findOne]). *)
Variable casts : string → bool.

(** [meeting.save()] on a new document: rejects when validation fails or
    when the [_id] is already taken. *)
Definition Meeting_create (id : string) (m : Meeting) (st : Store) : option Store :=
  if validate m then
    match meetings st !! id with
    | None => Some (Meeting_save id m st)
    | Some _ => None
    end
  else None.

(** GET / *)
Definition listForCaller (st : Store) (caller : string) : Response * Store :=
  let found := Meeting_find_sorted (participant caller) (meetings st) in
  (json (BMeetings ((λ d, populate (users st) d.1 d.2) <$> found)), st).

(** The body of POST / *)
Record CreateBody := {
  email : string;
  body_title : option string;
  body_description : option string;
  body_dateTime : option string;
  body_duration : option string
}.

(** POST / *)
Definition createMeeting (env : Env) (st : Store) (caller : string)
    (b : CreateBody) : Response * Store :=
  match User_findOne_email (email b) (users st) with
  | None => (status_json 404 (BMessage "User not found"), st)
  | Some requestedToUser =>
      let link := gen_meetingLink env in
      let room := gen_virtualPitchRoomId env in
      let meeting :=
        {| requestedBy := caller;
           requestedTo := user_id requestedToUser;
           title := body_title b;
           description := body_description b;
           dateTime := body_dateTime b;
           duration := body_duration b;
           status := default_status;
           meetingLink := Some link;
           virtualPitchRoomId := Some room;
           createdAt := timestamp env |} in
      match Meeting_create (new_id env) meeting st with
      | Some st' =>
          (status_json 201 (BMeeting (populate (users st') (new_id env) meeting)), st')
      | None => (status_json 400 (BMessage "Error creating meeting"), st)
      end
  end.

(** PATCH /:meetingId/status *)
Definition setStatus (env : Env) (st : Store) (caller meetingId : string)
    (newStatus : option string) : Response * Store :=
  if negb (includes ["accepted"; "declined"] newStatus) then
    (status_json 400 (BMessage "Invalid status"), st)
  else
    match Meeting_findOne casts meetingId (λ m, requestedTo m = caller)
            (meetings st) with
    | Rejects =>
        (status_json 400 (BMessage "Error updating meeting status"), st)
    | Resolves None =>
        (status_json 404 (BMessage "Meeting not found or unauthorized"), st)
    | Resolves (Some meeting) =>
        let meeting := set_status newStatus meeting in
        let meeting :=
          if bool_decide (newStatus = Some "accepted")
             && negb (truthy (virtualPitchRoomId meeting))
          then set_virtualPitchRoomId (Some (gen_virtualPitchRoomId env)) meeting
          else meeting in
        let st' := Meeting_save meetingId meeting st in
        (json (BMeeting (populate (users st') meetingId meeting)), st')
    end.

(** PATCH /:meetingId *)
Definition updateMeetingLink (st : Store) (caller meetingId : string)
    (newLink : option string) : Response * Store :=
  match Meeting_findOne casts meetingId (participant caller) (meetings st) with
  | Rejects => (status_json 400 (BMessage "Error updating meeting"), st)
  | Resolves None =>
      (status_json 404 (BMessage "Meeting not found or unauthorized"), st)
  | Resolves (Some meeting) =>
      let meeting :=
        if truthy newLink then set_meetingLink newLink meeting else meeting in
      let st' := Meeting_save meetingId meeting st in
      (json (BMeeting (populate (users st') meetingId meeting)), st')
  end.

(** GET /users *)
Definition listOtherUsers (st : Store) (caller : string) : Response * Store :=
  let others := filter (λ u, user_id u ≠ caller) (users st) in
  (json (BUsers ((λ u, {| info_id := user_id u; info_name := user_name u;
                          info_email := user_email u;
                          info_userType := user_userType u |}) <$> others)), st).

Definition pitch_info (meetingId : string) (meeting : Meeting) : PitchInfo :=
  {| pitch_meetingId := meetingId;
     pitch_title := title meeting;
     pitch_virtualPitchRoomId := virtualPitchRoomId meeting;
     pitch_virtualPitchUrl :=
       "/virtual-pitch/" +:+ js_template (virtualPitchRoomId meeting) |}.

(** GET /:meetingId/virtual-pitch *)
Definition getVirtualPitchInfo (st : Store) (caller meetingId : string)
    : Response * Store :=
  match Meeting_findOne casts meetingId (participant caller) (meetings st) with
  | Rejects =>
      (status_json 500
         (BMessage "Error fetching virtual pitch information"), st)
  | Resolves None =>
      (status_json 404 (BMessage "Meeting not found or unauthorized"), st)
  | Resolves (Some meeting) =>
      (json (BPitch (pitch_info meetingId meeting)), st)
  end.

(** PATCH /:meetingId/refresh-virtual-pitch *)
Definition refreshVirtualPitch (env : Env) (st : Store)
    (caller meetingId : string) : Response * Store :=
  match Meeting_findOne casts meetingId
          (λ m, status m = Some "accepted" ∧ participant caller m)
          (meetings st) with
  | Rejects =>
      (status_json 500
         (BMessage "Error refreshing virtual pitch room ID"), st)
  | Resolves None =>
      (status_json 404
         (BMessage "Meeting not found, not accepted, or unauthorized"), st)
  | Resolves (Some meeting) =>
      let room := gen_virtualPitchRoomId env in
      let meeting := set_virtualPitchRoomId (Some room) meeting in
      let st' := Meeting_save meetingId meeting st in
      (json (BPitch (pitch_info meetingId meeting)), st')
  end.

(** ** Sequences of requests *)

(** An authenticated request: the caller is [req.user.id], set by the
    [auth] middleware. *)
Inductive Request :=
| GetMeetings (caller : string)
| PostMeeting (caller : string) (b : CreateBody)
| PatchStatus (caller meetingId : string) (newStatus : option string)
| PatchMeeting (caller meetingId : string) (newLink : option string)
| GetUsers (caller : string)
| GetVirtualPitch (caller meetingId : string)
| PatchRefreshVirtualPitch (caller meetingId : string).

(** The router: one request, served in the environment [env]. *)
Definition handle (env : Env) (st : Store) (r : Request) : Response * Store :=
  match r with
  | GetMeetings caller => listForCaller st caller
  | PostMeeting caller b => createMeeting env st caller b
  | PatchStatus caller meetingId newStatus =>
      setStatus env st caller meetingId newStatus
  | PatchMeeting caller meetingId newLink =>
      updateMeetingLink st caller meetingId newLink
  | GetUsers caller => listOtherUsers st caller
  | GetVirtualPitch caller meetingId => getVirtualPitchInfo st caller meetingId
  | PatchRefreshVirtualPitch caller meetingId =>
      refreshVirtualPitch env st caller meetingId
  end.

(** The store after serving a sequence of requests, one after the other. *)
Fixpoint run (st : Store) (reqs : list (Env * Request)) : Store :=
  match reqs with
  | [] => st
  | (env, r) :: reqs => run (handle env st r).2 reqs
  end.

(** A store with no meeting yet. *)
Definition fresh_store (us : list User) : Store :=
  {| meetings := ∅; users := us |}.

(** The stores the routes can produce from a store without meetings. *)
Definition reachable (st : Store) : Prop :=
  ∃ us reqs, st = run (fresh_store us) reqs.

End Routes.

(** ** Vocabulary of the statements *)

(** The caller is not the [requestedTo] participant of the meeting
    [meetingId]; this holds in particular when there is no such meeting. *)
Definition not_requestedTo (caller meetingId : string) (st : Store) : Prop :=
  ∀ m, meetings st !! meetingId = Some m → requestedTo m ≠ caller.

Definition invalid_status : Response :=
  status_json 400 (BMessage "Invalid status").
Definition not_found_or_unauthorized : Response :=
  status_json 404 (BMessage "Meeting not found or unauthorized").

(** The answers of the [catch] blocks of the status and refresh routes. *)
Definition error_updating_status : Response :=
  status_json 400 (BMessage "Error updating meeting status").
Definition error_refreshing : Response :=
  status_json 500 (BMessage "Error refreshing virtual pitch room ID").

(** What serving one request may do to the store: nothing, or one write
    of one meeting document. *)
Inductive Effect (env : Env) (st : Store) : Request → Store → Prop :=
| effect_none r :
    Effect env st r st
| effect_create caller b m :
    meetings st !! new_id env = None →
    requestedBy m = caller →
    status m = Some "pending" →
    virtualPitchRoomId m = Some (gen_virtualPitchRoomId env) →
    Effect env st (PostMeeting caller b) (Meeting_save (new_id env) m st)
| effect_status caller meetingId newStatus m m' :
    meetings st !! meetingId = Some m →
    requestedTo m = caller →
    newStatus = Some "accepted" ∨ newStatus = Some "declined" →
    m' = set_status newStatus m
      ∨ (newStatus = Some "accepted" ∧ truthy (virtualPitchRoomId m) = false ∧
         m' = set_virtualPitchRoomId (Some (gen_virtualPitchRoomId env))
                (set_status newStatus m)) →
    (newStatus = Some "accepted" → truthy (virtualPitchRoomId m') = true) →
    Effect env st (PatchStatus caller meetingId newStatus)
      (Meeting_save meetingId m' st)
| effect_link caller meetingId newLink m :
    meetings st !! meetingId = Some m →
    participant caller m →
    truthy newLink = true →
    Effect env st (PatchMeeting caller meetingId newLink)
      (Meeting_save meetingId (set_meetingLink newLink m) st)
| effect_refresh caller meetingId m :
    meetings st !! meetingId = Some m →
    participant caller m →
    status m = Some "accepted" →
    Effect env st (PatchRefreshVirtualPitch caller meetingId)
      (Meeting_save meetingId
         (set_virtualPitchRoomId (Some (gen_virtualPitchRoomId env)) m) st).

(** The id of the one document a request may write. *)
Definition written_id (env : Env) (r : Request) : option string :=
  match r with
  | PostMeeting _ _ => Some (new_id env)
  | PatchStatus _ meetingId _
  | PatchMeeting _ meetingId _
  | PatchRefreshVirtualPitch _ meetingId => Some meetingId
  | GetMeetings _ | GetUsers _ | GetVirtualPitch _ _ => None
  end.

(** Every accepted meeting of the store has a pitch room id. *)
Definition accepted_have_room (st : Store) : Prop :=
  ∀ id m, meetings st !! id = Some m → status m = Some "accepted" →
    truthy (virtualPitchRoomId m) = true.

(** The caller may refresh the pitch room of the meeting [meetingId]. *)
Definition refresh_allowed (caller meetingId : string) (st : Store) : Prop :=
  ∃ m, meetings st !! meetingId = Some m ∧
       status m = Some "accepted" ∧ participant caller m.

Definition not_found_not_accepted_or_unauthorized : Response :=
  status_json 404 (BMessage "Meeting not found, not accepted, or unauthorized").

(** The fields of a meeting other than [meetingLink]. *)
Definition same_but_meetingLink (m m' : Meeting) : Prop :=
  requestedBy m' = requestedBy m ∧ requestedTo m' = requestedTo m ∧
  title m' = title m ∧ description m' = description m ∧
  dateTime m' = dateTime m ∧ duration m' = duration m ∧
  status m' = status m ∧
  virtualPitchRoomId m' = virtualPitchRoomId m ∧
  createdAt m' = createdAt m.

(** A string without the character [-]. *)
Fixpoint dash_free (s : string) : bool :=
  match s with
  | EmptyString => true
  | String c s => negb (Ascii.eqb c "-"%char) && dash_free s
  end.

(** ** A running example *)

Module Example.

Definition alice : User :=
  {| user_id := "u1"; user_name := "Alice";
     user_email := "alice@x.com"; user_userType := "startup" |}.
Definition bob : User :=
  {| user_id := "u2"; user_name := "Bob";
     user_email := "bob@x.com"; user_userType := "investor" |}.
Definition charlie : User :=
  {| user_id := "u3"; user_name := "Charlie";
     user_email := "charlie@x.com"; user_userType := "investor" |}.

Definition directory : list User := [alice; bob; charlie].

Definition accept_all (m : Meeting) : bool := true.

(** In the examples the strings that cast to the type of [_id] are those
    that start with the letter m. *)
Definition object_id (s : string) : bool :=
  match s with
  | String "m" _ => true
  | _ => false
  end.

Definition env1 : Env :=
  {| new_id := "m1"; timestamp := 1000; random_link := "0.4fzyo82mvyr";
     date_now := 1000; random_pitch := "0.9x3k2p7q1zd" |}.

Definition pitch_body (target : string) : CreateBody :=
  {| email := target; body_title := Some "Pitch";
     body_description := Some "Seed round"; body_dateTime := Some "T";
     body_duration := Some "30" |}.

(** An environment that differs from [env1] but generates the same pitch
    room id: same clock reading, and a random number whose base-36 digits
    agree with those of [env1] on the six that are kept. *)
Definition env2 : Env :=
  {| new_id := "m2"; timestamp := 1000; random_link := "0.c1d7h3n5k2a";
     date_now := 1000; random_pitch := "0.9x3k2pw5b4e" |}.

(** A later request. *)
Definition env3 : Env :=
  {| new_id := "m3"; timestamp := 2000; random_link := "0.k3j8s0a1m4x";
     date_now := 2000; random_pitch := "0.7d1w9e5t3c8" |}.

Definition st0 : Store := fresh_store directory.
Definition st1 : Store :=
  (createMeeting accept_all env1 st0 "u1" (pitch_body "bob@x.com")).2.
Definition st2 : Store :=
  (setStatus object_id env1 st1 "u2" "m1" (Some "accepted")).2.

(** The meeting Alice requests from Bob in [st1]. *)
Definition meeting1 : Meeting :=
  {| requestedBy := "u1"; requestedTo := "u2";
     title := Some "Pitch"; description := Some "Seed round";
     dateTime := Some "T"; duration := Some "30";
     status := Some "pending";
     meetingLink := Some "https://meet.google.com/82mvyr";
     virtualPitchRoomId := Some "pitch-1000-9x3k2p";
     createdAt := 1000 |}.

(** A store holding a pending meeting that has no pitch room id, as a
    document written before the routes assigned one at creation. *)
Definition meeting0 : Meeting := set_virtualPitchRoomId None meeting1.
Definition legacy : Store := Meeting_save "m0" meeting0 st0.

End Example.

(** ** Further vocabulary *)


(** The fields of a meeting that no route assigns once it is created. *)
Definition same_identity (m m' : Meeting) : Prop :=
  requestedBy m' = requestedBy m ∧ requestedTo m' = requestedTo m ∧
  title m' = title m ∧ description m' = description m ∧
  dateTime m' = dateTime m ∧ duration m' = duration m ∧
  createdAt m' = createdAt m.

(** What the routes establish for every meeting they write, over the user
    directory [us]. *)
Definition well_formed (us : list User) (m : Meeting) : Prop :=
  (status m = Some "pending" ∨ status m = Some "accepted"
   ∨ status m = Some "declined")
  ∧ truthy (meetingLink m) = true
  ∧ (∃ env0, virtualPitchRoomId m = Some (gen_virtualPitchRoomId env0))
  ∧ (∃ u, u ∈ us ∧ user_id u = requestedTo m).

(** The ['name email userType'] projection of GET /users. *)
Definition user_info (u : User) : UserInfo :=
  {| info_id := user_id u; info_name := user_name u;
     info_email := user_email u; info_userType := user_userType u |}.

(** ** The connection bootstrap (config/db.js) *)

Module Db.

(** An argument of [console.log] or [console.error]. *)
Inductive Arg :=
| AString (s : string)
| AValue (v : option string)
| ANames (l : list string).

(** What [connectDB] does to the outside, in order. *)
Inductive Event :=
| Log (args : list Arg)
| LogError (args : list Arg)
| Connect (uri : option string)
| ListCollections
| Exit (exit_code : N).

(** An entry of [listCollections().toArray()]. *)
Record CollectionInfo := { name : string }.

(** The connection [mongoose.connect] resolves to: its host, and what
    [conn.connection.db.listCollections().toArray()] gives, the entries or
    the message of the error it rejects with. *)
Record Connection := {
  host : string;
  listCollections : list CollectionInfo + string
}.

(** The catch block: log the message, leave the process. *)
Definition on_error (message : string) : list Event :=
  [LogError [AString ("Error: " +:+ message)]; Exit 1].

(** [connectDB], given [process.env.MONGODB_URI] and the outcome of
    [mongoose.connect] on a URI (a connection, or the message of the error
    it rejects with).  The options object of the call is constant and left
    out of the event. *)
Definition connectDB (uri : option string)
    (connect : option string → Connection + string) : list Event :=
  [Log [AString "Attempting to connect to MongoDB..."];
   Log [AString "MongoDB URI:"; AValue uri];
   Connect uri] ++
  match connect uri with
  | inl conn =>
      [Log [AString ("MongoDB Connected: " +:+ host conn)]; ListCollections] ++
      match listCollections conn with
      | inl collections =>
          [Log [AString "Available collections:"; ANames (name <$> collections)]]
      | inr message => on_error message
      end
  | inr message => on_error message
  end.

End Db.

(** ** Further examples *)

Module Scenario.

Import Example.

(** The meeting of [st2], accepted. *)
Definition meeting2 : Meeting := set_status (Some "accepted") meeting1.

(** A second meeting, requested by Charlie from Alice, in the store [st2]. *)
Definition st3 : Store :=
  (createMeeting accept_all env3 st2 "u3" (pitch_body "alice@x.com")).2.

(** A reachable database, and one that refuses the connection. *)
Definition atlas (uri : option string) : Db.Connection + string :=
  inl {| Db.host := "cluster0.example.net";
         Db.listCollections :=
           inl [{| Db.name := "users" |}; {| Db.name := "meetings" |}] |}.
Definition unreachable (uri : option string) : Db.Connection + string :=
  inr "connect ECONNREFUSED".

End Scenario.

(** * Properties *)

(** ** Queries and generated tokens *)

Lemma Meeting_findOne_Some casts id (P : Meeting → Prop)
    `{∀ m, Decision (P m)} (ms : gmap string Meeting) m :
  Meeting_findOne casts id P ms = Resolves (Some m) ↔ ms !! id = Some m ∧ P m.
Proof.
  unfold Meeting_findOne. destruct (ms !! id) as [m0|].
  - destruct (decide (P m0)) as [Hp|Hp]; split.
    + intros [= <-]. done.
    + intros [[= <-] _]. done.
    + done.
    + intros [[= <-] Hm]. done.
  - destruct (casts id); (split; [done|]); intros [[=] _].
Qed.

Lemma Meeting_findOne_None casts id (P : Meeting → Prop)
    `{∀ m, Decision (P m)} (ms : gmap string Meeting) :
  Meeting_findOne casts id P ms = Resolves None ↔
  (∀ m, ms !! id = Some m → ¬ P m) ∧ (ms !! id = None → casts id = true).
Proof.
  unfold Meeting_findOne. destruct (ms !! id) as [m0|].
  - destruct (decide (P m0)) as [Hp|Hp]; split.
    + done.
    + intros [Hall _]. by destruct (Hall m0).
    + intros _. split; [|done]. intros m [= <-]. done.
    + done.
  - destruct (casts id); split.
    + intros _. split; [|done]. intros m [=].
    + done.
    + done.
    + intros [_ Hc]. by specialize (Hc eq_refl).
Qed.

(** The lookup rejects exactly on an id that is no key and does not
    cast. *)
Lemma Meeting_findOne_Rejects casts id (P : Meeting → Prop)
    `{∀ m, Decision (P m)} (ms : gmap string Meeting) :
  Meeting_findOne casts id P ms = Rejects ↔
  ms !! id = None ∧ casts id = false.
Proof.
  unfold Meeting_findOne. destruct (ms !! id) as [m0|].
  - split; [done|]. intros [[=] _].
  - destruct (casts id); split; try done. intros [_ [=]].
Qed.

(** On a store whose keys all cast, the lookup is the one that casts
    first and queries after. *)
Lemma Meeting_findOne_cast_first casts id (P : Meeting → Prop)
    `{∀ m, Decision (P m)} (ms : gmap string Meeting) :
  (∀ k, is_Some (ms !! k) → casts k = true) →
  Meeting_findOne casts id P ms =
    if casts id
    then Resolves (m ← ms !! id; if decide (P m) then Some m else None)
    else Rejects.
Proof.
  intros Hkeys. unfold Meeting_findOne.
  destruct (ms !! id) as [m|] eqn:Hm; simpl.
  - by rewrite (Hkeys id) by (by rewrite Hm).
  - by destruct (casts id).
Qed.

Lemma Meeting_save_id id m st :
  meetings st !! id = Some m → Meeting_save id m st = st.
Proof.
  intros Hm. destruct st as [ms us]. unfold Meeting_save, with_meetings.
  simpl in *. by rewrite insert_id.
Qed.

Lemma gen_virtualPitchRoomId_truthy env :
  truthy (Some (gen_virtualPitchRoomId env)) = true.
Proof. unfold truthy. apply bool_decide_eq_true. discriminate. Qed.

Lemma string_app_cons c s t : String c s +:+ t = String c (s +:+ t).
Proof. reflexivity. Qed.

Lemma string_app_nil s : "" +:+ s = s.
Proof. reflexivity. Qed.

Lemma pretty_N_go_dash_free x s :
  dash_free s = true → dash_free (pretty_N_go x s) = true.
Proof.
  revert s. induction (N.lt_wf_0 x) as [x _ IH]; intros s Hs.
  assert (x = 0 ∨ 0 < x)%N as [->|Hpos] by lia.
  - by rewrite pretty_N_go_0.
  - rewrite pretty_N_go_step by done. apply IH; [by apply N.div_lt|].
    simpl. rewrite Hs, andb_true_r.
    unfold pretty_N_char. by repeat case_match.
Qed.

(** The decimal rendering of [Date.now()] holds digits only. *)
Lemma pretty_N_dash_free (n : N) : dash_free (pretty n) = true.
Proof.
  unfold pretty, pretty_N. case_decide; [done|].
  by apply pretty_N_go_dash_free.
Qed.

Lemma dash_free_app_inj d1 d2 s1 s2 :
  dash_free d1 = true → dash_free d2 = true →
  d1 +:+ "-" +:+ s1 = d2 +:+ "-" +:+ s2 → d1 = d2 ∧ s1 = s2.
Proof.
  revert d2. induction d1 as [|c d1 IH]; intros [|c' d2];
    rewrite ?string_app_cons, ?string_app_nil; simpl.
  - intros _ _ [= ->]. done.
  - intros _ [Hc _]%andb_true_iff [= <- _]. done.
  - intros [Hc _]%andb_true_iff _ [= -> _]. done.
  - intros [_ H1]%andb_true_iff [_ H2]%andb_true_iff [= -> Heq].
    destruct (IH d2 H1 H2 Heq) as [-> ->]. done.
Qed.

(** Two generated pitch room ids are equal exactly when the clock readings
    are equal and the kept digits of the random numbers are equal. *)
Lemma gen_virtualPitchRoomId_inj env env' :
  gen_virtualPitchRoomId env = gen_virtualPitchRoomId env' ↔
  date_now env = date_now env' ∧
  js_substring (random_pitch env) 2 (Some 8)
    = js_substring (random_pitch env') 2 (Some 8).
Proof.
  unfold gen_virtualPitchRoomId. split.
  - intros Heq. apply (inj (String.app "pitch-")) in Heq.
    apply dash_free_app_inj in Heq as [Hn Hs];
      auto using pretty_N_dash_free.
    split; [by apply (inj pretty)|done].
  - intros [-> ->]. done.
Qed.

Lemma includes_accepted_declined v :
  includes ["accepted"; "declined"] v = true ↔
  v = Some "accepted" ∨ v = Some "declined".
Proof.
  destruct v as [s|]; simpl.
  - rewrite bool_decide_eq_true, !elem_of_cons, elem_of_nil. split.
    + intros [->|[->|[]]]; auto.
    + intros [[= ->]|[= ->]]; auto.
  - split; [done|]. intros [[=]|[=]].
Qed.

(** ** Status changes: authorisation and validation *)

(** C1, as amended.  Take a new status that is accepted or declined and a
    caller who is not the [requestedTo] participant of the meeting
    [meetingId], or a [meetingId] under which there is no meeting.  When
    [meetingId] casts to the type of [_id], as the id of every stored
    meeting does, [setStatus] leaves the store unchanged and answers 404
    "Meeting not found or unauthorized", and the answer is the one given
    for a meeting id that does not exist, so the two cases cannot be told
    apart.  When [meetingId] does not cast, the lookup rejects and
    [setStatus] answers 400 "Error updating meeting status", the store
    again unchanged. *)
Theorem setStatus_not_requestedTo casts env st caller meetingId newStatus :
  not_requestedTo caller meetingId st →
  newStatus = Some "accepted" ∨ newStatus = Some "declined" →
  (is_Some (meetings st !! meetingId) ∨ casts meetingId = true →
     setStatus casts env st caller meetingId newStatus
       = (not_found_or_unauthorized, st)
     ∧ ∀ env' st' meetingId',
         meetings st' !! meetingId' = None →
         casts meetingId' = true →
         (setStatus casts env' st' caller meetingId' newStatus).1 =
         (setStatus casts env st caller meetingId newStatus).1)
  ∧ (meetings st !! meetingId = None → casts meetingId = false →
     setStatus casts env st caller meetingId newStatus
       = (error_updating_status, st)).
Proof.
  intros Hnot Hvalid%includes_accepted_declined.
  assert (Hgen : ∀ e s i, not_requestedTo caller i s →
    is_Some (meetings s !! i) ∨ casts i = true →
    setStatus casts e s caller i newStatus = (not_found_or_unauthorized, s)).
  { intros e s i Hs Hcast. unfold setStatus. rewrite Hvalid. simpl.
    assert (Meeting_findOne casts i (λ m, requestedTo m = caller)
              (meetings s) = Resolves None) as ->; [|done].
    apply Meeting_findOne_None. split; [done|].
    intros Hi. destruct Hcast as [[m Hm]|Hc]; [congruence|done]. }
  split.
  - intros Hcast. split; [by apply Hgen|].
    intros env' st' meetingId' Habsent Hcast'.
    rewrite (Hgen env st meetingId Hnot Hcast), (Hgen env' st' meetingId');
      [done| |by right].
    intros m Hm. congruence.
  - intros Habsent Hcast. unfold setStatus. rewrite Hvalid. simpl.
    assert (Meeting_findOne casts meetingId (λ m, requestedTo m = caller)
              (meetings st) = Rejects) as ->; [|done].
    by apply Meeting_findOne_Rejects.
Qed.

(** C8.  A [newStatus] other than accepted and declined is refused with
    400 "Invalid status" and the store is unchanged, whoever the caller
    and whatever the meeting id and the content of the store: the check
    comes before any meeting is loaded. *)
Theorem setStatus_invalid_status casts env st caller meetingId newStatus :
  newStatus ≠ Some "accepted" →
  newStatus ≠ Some "declined" →
  setStatus casts env st caller meetingId newStatus = (invalid_status, st).
Proof.
  intros Ha Hd. unfold setStatus.
  destruct (includes _ newStatus) eqn:Hin; [|done].
  apply includes_accepted_declined in Hin. destruct Hin; done.
Qed.

(** ** Creation *)

Lemma User_findOne_email_None email us :
  User_findOne_email email us = None ↔ ∀ u, u ∈ us → user_email u ≠ email.
Proof.
  unfold User_findOne_email. split.
  - intros Hnone u Hu%list_elem_of_In.
    pose proof (find_none _ _ Hnone u Hu) as Hb. simpl in Hb.
    by apply bool_decide_eq_false in Hb.
  - intros Hall. destruct (find _ us) as [u|] eqn:Hfind; [|done].
    apply find_some in Hfind as [Hu%list_elem_of_In Hb].
    apply bool_decide_eq_true in Hb. by destruct (Hall u Hu).
Qed.

Lemma User_findOne_email_Some email us u :
  User_findOne_email email us = Some u → u ∈ us ∧ user_email u = email.
Proof.
  unfold User_findOne_email. intros [Hu Hb]%find_some.
  apply list_elem_of_In in Hu. by apply bool_decide_eq_true in Hb.
Qed.

(** C6.  When no user of the directory has the email of the request,
    [createMeeting] answers 404 "User not found" and the store after the
    call is the store before it. *)
Theorem createMeeting_unknown_email validate env st caller b :
  (∀ u, u ∈ users st → user_email u ≠ email b) →
  createMeeting validate env st caller b =
    (status_json 404 (BMessage "User not found"), st).
Proof.
  intros Hnone%User_findOne_email_None. unfold createMeeting.
  by rewrite Hnone.
Qed.

Lemma createMeeting_created validate env st caller b resp st' :
  createMeeting validate env st caller b = (resp, st') →
  code resp = 201%N →
  ∃ u m,
    User_findOne_email (email b) (users st) = Some u ∧
    meetings st !! new_id env = None ∧
    validate m = true ∧
    requestedBy m = caller ∧ requestedTo m = user_id u ∧
    status m = Some "pending" ∧
    meetingLink m = Some (gen_meetingLink env) ∧
    virtualPitchRoomId m = Some (gen_virtualPitchRoomId env) ∧
    st' = Meeting_save (new_id env) m st ∧
    resp = status_json 201 (BMeeting (populate (users st) (new_id env) m)).
Proof.
  unfold createMeeting, Meeting_create.
  destruct (User_findOne_email _ _) as [u|]; [|by intros [= <- <-]].
  match goal with |- context [validate ?d] => set (m := d) end.
  destruct (validate m) eqn:Hvalid; [|by intros [= <- <-]].
  destruct (meetings st !! new_id env) eqn:Hfree; [by intros [= <- <-]|].
  intros [= <- <-] _. exists u, m. by repeat split.
Qed.

(** ** The effect of a request on the store *)

Lemma setStatus_Effect casts env st caller meetingId newStatus :
  Effect env st (PatchStatus caller meetingId newStatus)
    (setStatus casts env st caller meetingId newStatus).2.
Proof.
  unfold setStatus.
  destruct (includes _ newStatus) eqn:Hin; simpl; [|constructor].
  apply includes_accepted_declined in Hin.
  destruct (Meeting_findOne _ _ _ _) as [[m|]|] eqn:Hfind; simpl;
    [|constructor..].
  apply Meeting_findOne_Some in Hfind as [Hm Hto].
  destruct (bool_decide (newStatus = Some "accepted")) eqn:Hacc; simpl.
  - apply bool_decide_eq_true in Hacc.
    destruct (truthy (virtualPitchRoomId m)) eqn:Hroom; simpl.
    + apply effect_status with m; auto.
    + apply effect_status with m; auto using gen_virtualPitchRoomId_truthy.
  - apply bool_decide_eq_false in Hacc.
    apply effect_status with m; auto.
Qed.

Lemma updateMeetingLink_Effect casts env st caller meetingId newLink :
  Effect env st (PatchMeeting caller meetingId newLink)
    (updateMeetingLink casts st caller meetingId newLink).2.
Proof.
  unfold updateMeetingLink.
  destruct (Meeting_findOne _ _ _ _) as [[m|]|] eqn:Hfind; simpl;
    [|constructor..].
  apply Meeting_findOne_Some in Hfind as [Hm Hpart].
  destruct (truthy newLink) eqn:Hlink.
  - by apply effect_link.
  - rewrite Meeting_save_id by done. constructor.
Qed.

Lemma refreshVirtualPitch_Effect casts env st caller meetingId :
  Effect env st (PatchRefreshVirtualPitch caller meetingId)
    (refreshVirtualPitch casts env st caller meetingId).2.
Proof.
  unfold refreshVirtualPitch.
  destruct (Meeting_findOne _ _ _ _) as [[m|]|] eqn:Hfind; simpl;
    [|constructor..].
  apply Meeting_findOne_Some in Hfind as (Hm & Hacc & Hpart).
  by apply effect_refresh.
Qed.

Lemma createMeeting_Effect validate env st caller b :
  Effect env st (PostMeeting caller b) (createMeeting validate env st caller b).2.
Proof.
  destruct (createMeeting validate env st caller b) as [resp st'] eqn:Hrun.
  destruct (decide (code resp = 201%N)) as [Hok|Hko].
  - destruct (createMeeting_created _ _ _ _ _ _ _ Hrun Hok)
      as (u & m & _ & Hfree & _ & Hby & _ & Hst & _ & Hroom & -> & _).
    by apply effect_create.
  - revert Hrun. unfold createMeeting.
    destruct (User_findOne_email _ _); [|intros [= <- <-]; constructor].
    destruct (Meeting_create _ _ _ _); intros [= <- <-];
      [by destruct Hko | constructor].
Qed.

Lemma handle_Effect validate casts env st r :
  Effect env st r (handle validate casts env st r).2.
Proof.
  destruct r; simpl;
    auto using createMeeting_Effect, setStatus_Effect,
      updateMeetingLink_Effect, refreshVirtualPitch_Effect, effect_none.
  - unfold getVirtualPitchInfo. destruct (Meeting_findOne _ _ _ _) as [[?|]|]; constructor.
Qed.

Lemma Effect_users env st r st' : Effect env st r st' → users st' = users st.
Proof. by destruct 1. Qed.

Lemma lookup_Meeting_save id m st j :
  meetings (Meeting_save id m st) !! j =
    if decide (id = j) then Some m else meetings st !! j.
Proof. unfold Meeting_save. simpl. apply lookup_insert. Qed.

(** ** Frame *)

(** C10.  Serving a request leaves the [User] collection unchanged and
    leaves unchanged every meeting other than the one the request
    designates: the meeting [meetingId] for [setStatus],
    [updateMeetingLink] and [refreshVirtualPitch], the new document for
    [createMeeting] (the read-only routes designate none).
    [createMeeting] moreover changes no meeting that existed before. *)
Theorem handle_frame validate casts env st r :
  users (handle validate casts env st r).2 = users st
  ∧ (∀ id, written_id env r ≠ Some id →
       meetings (handle validate casts env st r).2 !! id = meetings st !! id)
  ∧ (∀ caller b id m, r = PostMeeting caller b →
       meetings st !! id = Some m →
       meetings (handle validate casts env st r).2 !! id = Some m).
Proof.
  pose proof (handle_Effect validate casts env st r) as Heff.
  split; [by eapply Effect_users|]. split.
  - intros id Hid. destruct Heff; try done;
      rewrite lookup_Meeting_save; case_decide; simpl in *; congruence.
  - intros caller b id m Hr Hm. destruct Heff as [|? ? m0 Hfree| | |];
      try done.
    rewrite lookup_Meeting_save. case_decide; congruence.
Qed.

(** ** Status transitions *)

Lemma Effect_status env st r st' id m :
  Effect env st r st' →
  meetings st !! id = Some m →
  ∃ m', meetings st' !! id = Some m' ∧
    (status m' = status m ∨
     ∃ s, r = PatchStatus (requestedTo m) id (Some s) ∧
          (s = "accepted" ∨ s = "declined") ∧ status m' = Some s).
Proof.
  intros Heff Hm.
  destruct Heff as [r|caller b m0 Hfree _ _ _
    |caller meetingId newStatus m0 m' Hm0 Hto Hvalid Hm' _
    |caller meetingId newLink m0 Hm0 _ _|caller meetingId m0 Hm0 _ _].
  - eauto.
  - exists m. rewrite lookup_Meeting_save. case_decide; [congruence|eauto].
  - rewrite lookup_Meeting_save. case_decide as Hid; [|eauto].
    subst meetingId. assert (m0 = m) as -> by congruence.
    exists m'. split; [done|]. right.
    assert (status m' = newStatus) as Hst
      by (destruct Hm' as [->|(_ & _ & ->)]; done).
    destruct Hvalid as [->| ->]; [exists "accepted"|exists "declined"];
      subst caller; auto.
  - rewrite lookup_Meeting_save. case_decide; [|eauto].
    eexists; split; [done|]. left. simpl. congruence.
  - rewrite lookup_Meeting_save. case_decide; [|eauto].
    eexists; split; [done|]. left. simpl. congruence.
Qed.

Lemma run_status validate casts reqs st id m :
  meetings st !! id = Some m →
  ∃ m', meetings (run validate casts st reqs) !! id = Some m' ∧
    (status m' = status m ∨ status m' = Some "accepted"
     ∨ status m' = Some "declined").
Proof.
  revert st m. induction reqs as [|[env r] reqs IH]; intros st m Hm; simpl.
  - eauto.
  - destruct (Effect_status _ _ _ _ _ _ (handle_Effect validate casts env st r) Hm)
      as (m1 & Hm1 & Hstep).
    destruct (IH _ _ Hm1) as (m' & Hm' & Hrun).
    exists m'. split; [done|].
    destruct Hstep as [Heq|(s & _ & [-> | ->] & Hs)];
      rewrite ?Heq, ?Hs in Hrun; intuition auto.
Qed.

Lemma setStatus_sets_status casts env st meetingId m s :
  meetings st !! meetingId = Some m →
  s = "accepted" ∨ s = "declined" →
  ∃ m',
    setStatus casts env st (requestedTo m) meetingId (Some s)
      = (json (BMeeting (populate (users st) meetingId m')),
         Meeting_save meetingId m' st)
    ∧ status m' = Some s
    ∧ meetingLink m' = meetingLink m
    ∧ truthy (virtualPitchRoomId m')
      = truthy (virtualPitchRoomId m) || bool_decide (s = "accepted")
    ∧ (truthy (virtualPitchRoomId m) = true ∨ s = "declined" →
       virtualPitchRoomId m' = virtualPitchRoomId m)
    ∧ (truthy (virtualPitchRoomId m) = false → s = "accepted" →
       virtualPitchRoomId m' = Some (gen_virtualPitchRoomId env)).
Proof.
  intros Hm Hs. unfold setStatus.
  assert (includes ["accepted"; "declined"] (Some s) = true) as ->.
  { apply includes_accepted_declined. destruct Hs as [->| ->]; auto. }
  assert (Meeting_findOne casts meetingId
            (λ m0, requestedTo m0 = requestedTo m) (meetings st)
          = Resolves (Some m)) as -> by by apply Meeting_findOne_Some.
  simpl. destruct Hs as [->| ->]; simpl.
  - destruct (truthy (virtualPitchRoomId m)) eqn:Hroom; simpl;
      eexists; (split; [reflexivity|]); simpl;
      rewrite ?Hroom; repeat split; try done; by intros [|].
  - eexists. split; [reflexivity|]. simpl. rewrite orb_false_r.
    by repeat split.
Qed.

(** C3, as amended.  A stored meeting is never removed, and serving a
    request changes its status only when the request is [setStatus] by its
    [requestedTo] participant with the new status accepted or declined;
    the status then becomes the new status, whatever it was before.  So
    along any sequence of requests the status of a meeting is either
    what it was or one of accepted and declined, and a meeting that has
    left pending never comes back to it. *)
Theorem status_transitions validate casts st id m :
  meetings st !! id = Some m →
  (∀ env r, ∃ m',
      meetings (handle validate casts env st r).2 !! id = Some m' ∧
      (status m' = status m ∨
       ∃ s, r = PatchStatus (requestedTo m) id (Some s) ∧
            (s = "accepted" ∨ s = "declined") ∧ status m' = Some s))
  ∧ (∀ reqs, ∃ m',
      meetings (run validate casts st reqs) !! id = Some m' ∧
      (status m' = status m ∨ status m' = Some "accepted"
       ∨ status m' = Some "declined") ∧
      (status m ≠ Some "pending" → status m' ≠ Some "pending"))
  ∧ (∀ env s, s = "accepted" ∨ s = "declined" →
      code (handle validate casts env st
              (PatchStatus (requestedTo m) id (Some s))).1 = 200%N
      ∧ ∃ m',
          meetings (handle validate casts env st
                      (PatchStatus (requestedTo m) id (Some s))).2 !! id
            = Some m'
          ∧ status m' = Some s).
Proof.
  intros Hm. split; [|split].
  - intros env r. eapply Effect_status; [apply handle_Effect|done].
  - intros reqs. destruct (run_status validate casts reqs st id m Hm) as (m' & Hm' & Hst).
    exists m'. repeat split; [done..|].
    intros Hne. destruct Hst as [->|[->| ->]]; done.
  - intros env s Hs. simpl.
    destruct (setStatus_sets_status casts env st id m s Hm Hs)
      as (m' & -> & Hst & _).
    split; [done|]. exists m'. split; [|done]. apply lookup_insert_eq.
Qed.

(** ** The virtual pitch room of an accepted meeting *)

Lemma Effect_accepted_have_room env st r st' :
  Effect env st r st' → accepted_have_room st → accepted_have_room st'.
Proof.
  intros Heff Hinv.
  destruct Heff as [r|caller b m0 Hfree _ Hpending _
    |caller meetingId newStatus m0 m' Hm0 _ _ Hm' Hroom
    |caller meetingId newLink m0 Hm0 _ _|caller meetingId m0 Hm0 _ _];
    [done|intros id m; rewrite lookup_Meeting_save;
          case_decide; [intros [= <-]|by apply Hinv]..].
  - congruence.
  - intros Hacc. apply Hroom.
    destruct Hm' as [->|(-> & _)]; [done|done].
  - simpl. by eapply Hinv.
  - intros _. apply gen_virtualPitchRoomId_truthy.
Qed.

Lemma run_accepted_have_room validate casts reqs st :
  accepted_have_room st → accepted_have_room (run validate casts st reqs).
Proof.
  revert st. induction reqs as [|[env r] reqs IH]; intros st Hinv; [done|].
  simpl. apply IH. eapply Effect_accepted_have_room; [apply handle_Effect|done].
Qed.

(** C4.  A [setStatus] with the new status accepted by the [requestedTo]
    participant of a stored meeting succeeds, and after a successful
    [setStatus] with the new status accepted the stored meeting is
    accepted and its [virtualPitchRoomId] is set and not empty: the id it
    had when it had one, a newly generated one otherwise.  Hence every
    accepted meeting of a store the routes can reach has a
    [virtualPitchRoomId]. *)
Theorem accepted_meeting_has_room validate casts :
  (∀ env st meetingId m,
     meetings st !! meetingId = Some m →
     ∃ m',
       setStatus casts env st (requestedTo m) meetingId (Some "accepted")
         = (json (BMeeting (populate (users st) meetingId m')),
            Meeting_save meetingId m' st)
       ∧ status m' = Some "accepted"
       ∧ truthy (virtualPitchRoomId m') = true
       ∧ (truthy (virtualPitchRoomId m) = true →
            virtualPitchRoomId m' = virtualPitchRoomId m)
       ∧ (truthy (virtualPitchRoomId m) = false →
            virtualPitchRoomId m' = Some (gen_virtualPitchRoomId env)))
  ∧ (∀ env st caller meetingId resp st',
     setStatus casts env st caller meetingId (Some "accepted") = (resp, st') →
     code resp = 200%N →
     ∃ m m',
       meetings st !! meetingId = Some m ∧
       meetings st' !! meetingId = Some m' ∧
       status m' = Some "accepted" ∧
       truthy (virtualPitchRoomId m') = true ∧
       (truthy (virtualPitchRoomId m) = true →
          virtualPitchRoomId m' = virtualPitchRoomId m) ∧
       (truthy (virtualPitchRoomId m) = false →
          virtualPitchRoomId m' = Some (gen_virtualPitchRoomId env)))
  ∧ (∀ st, reachable validate casts st → accepted_have_room st).
Proof.
  split; [|split].
  - intros env st meetingId m Hm.
    destruct (setStatus_sets_status casts env st meetingId m "accepted" Hm)
      as (m' & Hrun & Hst & _ & Htruthy & Hkeep & Hgen); [by left|].
    exists m'. split; [done|]. split; [done|].
    split; [by rewrite Htruthy, orb_true_r|]. split; auto.
  - intros env st caller meetingId resp st'. unfold setStatus. simpl.
    destruct (Meeting_findOne _ _ _ _) as [[m|]|] eqn:Hfind;
      [|by intros [= <- <-]..].
    apply Meeting_findOne_Some in Hfind as [Hm Hto].
    intros [= <- <-] _. exists m. eexists.
    rewrite lookup_Meeting_save. rewrite decide_True by done.
    split; [done|]. split; [done|].
    destruct (truthy (virtualPitchRoomId m)) eqn:Hroom; simpl;
      rewrite ?Hroom; by repeat split.
  - intros st (us & reqs & ->). apply run_accepted_have_room.
    intros id m. unfold fresh_store. simpl. by rewrite lookup_empty.
Qed.

(** ** Refreshing the virtual pitch room *)

(** C5, as amended.  [refreshVirtualPitch] succeeds exactly when the
    meeting exists, is accepted and has the caller as a participant; in
    every other case the store is unchanged, and the answer is 404 when
    [meetingId] casts to the type of [_id], as the id of every stored
    meeting does, and 500 "Error refreshing virtual pitch room ID" when it
    does not cast, the lookup then rejecting.  On success the
    [virtualPitchRoomId] stored and returned is the id generated during
    the call, pitch-<Date.now()>-<random suffix>, which is not empty and
    overwrites the previous one, the rest of the meeting being unchanged.
    It differs from a previous id generated by the routes exactly when
    the clock reading or the random suffix differs from the one used for
    the previous id. *)
Theorem refreshVirtualPitch_spec casts env st caller meetingId :
  (code (refreshVirtualPitch casts env st caller meetingId).1 = 200%N ↔
     refresh_allowed caller meetingId st)
  ∧ (¬ refresh_allowed caller meetingId st →
     (is_Some (meetings st !! meetingId) ∨ casts meetingId = true →
        refreshVirtualPitch casts env st caller meetingId =
          (not_found_not_accepted_or_unauthorized, st))
     ∧ (meetings st !! meetingId = None → casts meetingId = false →
        refreshVirtualPitch casts env st caller meetingId =
          (error_refreshing, st)))
  ∧ (∀ m, meetings st !! meetingId = Some m →
       status m = Some "accepted" → participant caller m →
       refreshVirtualPitch casts env st caller meetingId =
         (json (BPitch
            {| pitch_meetingId := meetingId;
               pitch_title := title m;
               pitch_virtualPitchRoomId := Some (gen_virtualPitchRoomId env);
               pitch_virtualPitchUrl :=
                 "/virtual-pitch/" +:+ gen_virtualPitchRoomId env |}),
          Meeting_save meetingId
            (set_virtualPitchRoomId (Some (gen_virtualPitchRoomId env)) m) st)
       ∧ gen_virtualPitchRoomId env ≠ ""
       ∧ ∀ env0,
           virtualPitchRoomId m = Some (gen_virtualPitchRoomId env0) →
           (Some (gen_virtualPitchRoomId env) ≠ virtualPitchRoomId m ↔
            date_now env ≠ date_now env0
            ∨ js_substring (random_pitch env) 2 (Some 8)
              ≠ js_substring (random_pitch env0) 2 (Some 8))).
Proof.
  unfold refreshVirtualPitch, refresh_allowed.
  destruct (Meeting_findOne _ _ _ _) as [[m|]|] eqn:Hfind.
  - apply Meeting_findOne_Some in Hfind as (Hm & Hacc & Hpart).
    split; [split; [eauto|done]|]. split.
    + intros []. eauto.
    + intros m' Hm' _ _. assert (m' = m) as -> by congruence.
      split; [done|]. split; [done|].
      intros env0 ->. split.
      * intros Hne.
        destruct (decide (date_now env = date_now env0)) as [Hn|]; [|auto].
        right. intros Hs. apply Hne. f_equal.
        by apply gen_virtualPitchRoomId_inj.
      * intros Hdiff Heq.
        assert (gen_virtualPitchRoomId env = gen_virtualPitchRoomId env0)
          as [Hn Hs]%gen_virtualPitchRoomId_inj by congruence.
        tauto.
  - apply Meeting_findOne_None in Hfind as [Hnone Hcast].
    assert (Hno : ¬ ∃ m, meetings st !! meetingId = Some m ∧
                         status m = Some "accepted" ∧ participant caller m).
    { intros (m & Hm & Hacc & Hpart). by apply (Hnone m). }
    split; [split; [done|by intros ?%Hno]|]. split.
    + intros _. split; [done|]. intros Habsent Hc.
      specialize (Hcast Habsent). congruence.
    + intros m Hm Hacc Hpart. destruct Hno. eauto.
  - apply Meeting_findOne_Rejects in Hfind as [Habsent Hcast].
    split; [split; [done|]|].
    { intros (m & Hm & _). congruence. }
    split.
    + intros _. split; [|done].
      intros [[m Hm]|Hc]; congruence.
    + intros m Hm. congruence.
Qed.

(** ** Updating the meeting link *)

(** C7.  For a meeting of which the caller is a participant,
    [updateMeetingLink] with an absent or empty link leaves the store as it
    is, and with a non-empty link it stores that link as the [meetingLink]
    of the meeting and leaves every other field of the meeting
    unchanged. *)
Theorem updateMeetingLink_link casts st caller meetingId newLink m :
  meetings st !! meetingId = Some m →
  participant caller m →
  (newLink = None ∨ newLink = Some "" →
     (updateMeetingLink casts st caller meetingId newLink).2 = st)
  ∧ (∀ s, newLink = Some s → s ≠ "" →
       ∃ m', meetings (updateMeetingLink casts st caller meetingId newLink).2
               !! meetingId = Some m' ∧
             meetingLink m' = Some s ∧ same_but_meetingLink m m').
Proof.
  intros Hm Hpart. unfold updateMeetingLink.
  assert (Meeting_findOne casts meetingId (participant caller) (meetings st)
      = Resolves (Some m))
    as -> by by apply Meeting_findOne_Some.
  split.
  - intros [-> | ->]; simpl; by apply Meeting_save_id.
  - intros s -> Hs. simpl. rewrite bool_decide_eq_true_2 by done. simpl.
    eexists. rewrite lookup_insert_eq.
    split; [done|]. by repeat split.
Qed.

(** ** Listing the meetings of a caller *)

Global Instance newer_first_total : Total newer_first.
Proof. intros a b. unfold newer_first. lia. Qed.

Global Instance newer_first_trans : Transitive newer_first.
Proof. intros a b c. unfold newer_first. lia. Qed.

(** C9.  [listForCaller] answers with the meetings of the store in which
    the caller is [requestedBy] or [requestedTo], each of them once and no
    other, whatever their status, newest [createdAt] first, and leaves the
    store unchanged. *)
Theorem listForCaller_spec st caller :
  ∃ found : list (string * Meeting),
    listForCaller st caller =
      (json (BMeetings ((λ d, populate (users st) d.1 d.2) <$> found)), st)
    ∧ NoDup found
    ∧ (∀ id m, (id, m) ∈ found ↔
         meetings st !! id = Some m ∧ participant caller m)
    ∧ StronglySorted newer_first found.
Proof.
  exists (Meeting_find_sorted (participant caller) (meetings st)).
  split; [done|]. unfold Meeting_find_sorted. split; [|split].
  - rewrite merge_sort_Permutation.
    apply NoDup_filter, NoDup_map_to_list.
  - intros id m. rewrite merge_sort_Permutation, list_elem_of_filter.
    rewrite elem_of_map_to_list. simpl. tauto.
  - apply StronglySorted_merge_sort; apply _.
Qed.

(** * The properties on the running example *)

Import Example.

Lemma st1_meeting1 : meetings st1 !! "m1" = Some meeting1.
Proof. vm_compute. reflexivity. Defined.

Lemma st2_meeting1 :
  meetings st2 !! "m1" = Some (set_status (Some "accepted") meeting1).
Proof. vm_compute. reflexivity. Defined.

Lemma st2_reachable : reachable accept_all object_id st2.
Proof.
  exists directory,
    [(env1, PostMeeting "u1" (pitch_body "bob@x.com"));
     (env1, PatchStatus "u2" "m1" (Some "accepted"))].
  reflexivity.
Qed.

(** The scenario of the specification: Alice creates, Bob accepts and the
    pitch room id is the one assigned at creation, Alice refreshes and
    gets another one; Charlie may not change the status. *)
Example scenario_create_accept_refresh :
  (createMeeting accept_all env1 st0 "u1" (pitch_body "bob@x.com")).1 =
    status_json 201 (BMeeting (populate directory "m1" meeting1))
  ∧ (setStatus object_id env1 st1 "u2" "m1" (Some "accepted")).1 =
    json (BMeeting (populate directory "m1"
                      (set_status (Some "accepted") meeting1)))
  ∧ (refreshVirtualPitch object_id env3 st2 "u1" "m1").1 =
    json (BPitch {| pitch_meetingId := "m1"; pitch_title := Some "Pitch";
                    pitch_virtualPitchRoomId := Some "pitch-2000-7d1w9e";
                    pitch_virtualPitchUrl :=
                      "/virtual-pitch/pitch-2000-7d1w9e" |})
  ∧ setStatus object_id env3 st1 "u3" "m1" (Some "accepted") =
    (not_found_or_unauthorized, st1).
Proof. repeat split; vm_compute; reflexivity. Qed.

(** C1, counterexample to the claim as stated: no meeting is stored under
    the id no-such-id, which does not cast, and Charlie's [setStatus]
    with the status accepted is answered 400 "Error updating meeting
    status", not 404. *)
Lemma setStatus_not_requestedTo_malformed_id :
  meetings st1 !! "no-such-id" = None
  ∧ not_requestedTo "u3" "no-such-id" st1
  ∧ setStatus object_id env1 st1 "u3" "no-such-id" (Some "accepted")
    = (error_updating_status, st1)
  ∧ code error_updating_status = 400%N.
Proof.
  split; [vm_compute; reflexivity|]. split; [|split; reflexivity].
  intros m Hm. vm_compute in Hm. discriminate Hm.
Qed.

(** Charlie, with a valid status, on the meeting of Alice and Bob and on
    an id that casts and does not exist. *)
Lemma setStatus_not_requestedTo_witness :
  not_requestedTo "u3" "m1" st1
  ∧ setStatus object_id env1 st1 "u3" "m1" (Some "accepted")
    = (not_found_or_unauthorized, st1)
  ∧ (setStatus object_id env1 st1 "u3" "m9" (Some "accepted")).1
    = (setStatus object_id env1 st1 "u3" "m1" (Some "accepted")).1.
Proof.
  assert (Hnot : not_requestedTo "u3" "m1" st1).
  { intros m Hm. rewrite st1_meeting1 in Hm. injection Hm as <-. discriminate. }
  split; [exact Hnot|].
  destruct (proj1 (setStatus_not_requestedTo object_id env1 st1 "u3" "m1"
                     (Some "accepted") Hnot (or_introl eq_refl))
              (or_intror eq_refl)) as [Hresp Hsame].
  split; [exact Hresp|].
  apply Hsame; vm_compute; reflexivity.
Defined.

(** Bob himself is refused when the status is not one of the two. *)
Lemma setStatus_invalid_status_witness :
  setStatus object_id env1 st1 "u2" "m1" (Some "cancelled")
  = (invalid_status, st1).
Proof.
  apply (setStatus_invalid_status object_id env1 st1 "u2" "m1"
           (Some "cancelled"));
    discriminate.
Defined.

(** Nobody in the directory has the email dave@x.com. *)
Lemma createMeeting_unknown_email_witness :
  (∀ u, u ∈ users st1 → user_email u ≠ "dave@x.com")
  ∧ createMeeting accept_all env2 st1 "u1" (pitch_body "dave@x.com")
    = (status_json 404 (BMessage "User not found"), st1).
Proof.
  assert (Hnone : ∀ u, u ∈ users st1 → user_email u ≠ "dave@x.com").
  { intros u Hu. change (users st1) with [alice; bob; charlie] in Hu.
    rewrite !elem_of_cons, elem_of_nil in Hu.
    destruct Hu as [->|[->|[->|[]]]]; discriminate. }
  split; [exact Hnone|].
  exact (createMeeting_unknown_email accept_all env2 st1 "u1"
           (pitch_body "dave@x.com") Hnone).
Defined.

(** C2, the failing input: Alice gives her own email.  The meeting is
    created (201) with Alice as both [requestedBy] and [requestedTo]. *)
Lemma createMeeting_own_email :
  ∃ m, createMeeting accept_all env1 st0 "u1" (pitch_body "alice@x.com")
       = (status_json 201 (BMeeting (populate directory "m1" m)),
          Meeting_save "m1" m st0)
       ∧ requestedBy m = "u1" ∧ requestedTo m = "u1"
       ∧ status m = Some "pending".
Proof.
  exists (set_status (Some "pending")
            {| requestedBy := "u1"; requestedTo := "u1";
               title := title meeting1; description := description meeting1;
               dateTime := dateTime meeting1; duration := duration meeting1;
               status := None; meetingLink := meetingLink meeting1;
               virtualPitchRoomId := virtualPitchRoomId meeting1;
               createdAt := 1000 |}).
  repeat split.
Qed.

(** C3, counterexample to the claim as stated: the meeting of [st2] is
    accepted, and Bob's next [setStatus] makes it declined. *)
Lemma accepted_then_declined :
  reachable accept_all object_id st2
  ∧ (status <$> meetings st2 !! "m1") = Some (Some "accepted")
  ∧ (status <$> meetings
       (handle accept_all object_id env2 st2
          (PatchStatus "u2" "m1" (Some "declined"))).2 !! "m1")
    = Some (Some "declined").
Proof. split; [apply st2_reachable|]. split; vm_compute; reflexivity. Qed.

(** The meeting of [st1]: Bob's acceptance is answered 200 and makes it
    accepted, and it is declined after his refusal. *)
Lemma status_transitions_witness :
  meetings st1 !! "m1" = Some meeting1
  ∧ (code (handle accept_all object_id env1 st1
             (PatchStatus "u2" "m1" (Some "accepted"))).1 = 200%N
     ∧ ∃ m', meetings
               (handle accept_all object_id env1 st1
                  (PatchStatus "u2" "m1" (Some "accepted"))).2 !! "m1"
             = Some m'
           ∧ status m' = Some "accepted")
  ∧ ∃ m', meetings
            (run accept_all object_id st1
               [(env1, PatchStatus "u2" "m1" (Some "accepted"));
                (env2, PatchStatus "u2" "m1" (Some "declined"))]) !! "m1"
          = Some m'
        ∧ (status m' = status meeting1 ∨ status m' = Some "accepted"
           ∨ status m' = Some "declined")
        ∧ (status meeting1 ≠ Some "pending" → status m' ≠ Some "pending").
Proof.
  destruct (status_transitions accept_all object_id st1 "m1" meeting1
              st1_meeting1) as (_ & Hrun & Hset).
  split; [exact st1_meeting1|]. split.
  - exact (Hset env1 "accepted" (or_introl eq_refl)).
  - exact (Hrun _).
Defined.

Lemma legacy_meeting0 : meetings legacy !! "m0" = Some meeting0.
Proof. vm_compute. reflexivity. Defined.

(** Bob accepts the meeting of [legacy], which has no room id: the
    answer is 200 and a room id is generated.  The accepted meeting of
    [st2] has its room. *)
Lemma accepted_meeting_has_room_witness :
  meetings legacy !! "m0" = Some meeting0
  ∧ truthy (virtualPitchRoomId meeting0) = false
  ∧ (∃ m',
       setStatus object_id env3 legacy "u2" "m0" (Some "accepted")
         = (json (BMeeting (populate (users legacy) "m0" m')),
            Meeting_save "m0" m' legacy)
       ∧ status m' = Some "accepted"
       ∧ virtualPitchRoomId m' = Some "pitch-2000-7d1w9e")
  ∧ accepted_have_room st2.
Proof.
  destruct (accepted_meeting_has_room accept_all object_id)
    as (Haccept & _ & Hreach).
  split; [exact legacy_meeting0|]. split; [reflexivity|]. split.
  - destruct (Haccept env3 legacy "m0" meeting0 legacy_meeting0)
      as (m' & Hrun & Hst & _ & _ & Hgen).
    exists m'. split; [exact Hrun|]. split; [exact Hst|].
    rewrite (Hgen eq_refl). vm_compute. reflexivity.
  - exact (Hreach st2 st2_reachable).
Defined.

(** C5, counterexample to the claim as stated: a refresh that succeeds
    and stores and returns the pitch room id the meeting already had. *)
Lemma refreshVirtualPitch_same_room :
  reachable accept_all object_id st2
  ∧ (virtualPitchRoomId <$> meetings st2 !! "m1")
    = Some (Some "pitch-1000-9x3k2p")
  ∧ (refreshVirtualPitch object_id env2 st2 "u1" "m1").1
    = json (BPitch {| pitch_meetingId := "m1"; pitch_title := Some "Pitch";
                      pitch_virtualPitchRoomId := Some "pitch-1000-9x3k2p";
                      pitch_virtualPitchUrl :=
                        "/virtual-pitch/pitch-1000-9x3k2p" |})
  ∧ (virtualPitchRoomId <$>
       meetings (refreshVirtualPitch object_id env2 st2 "u1" "m1").2 !! "m1")
    = Some (Some "pitch-1000-9x3k2p").
Proof.
  split; [apply st2_reachable|]. repeat split; vm_compute; reflexivity.
Qed.

(** A refresh at a later clock reading gives another id; a refresh on an
    id that does not cast is answered 500. *)
Lemma refreshVirtualPitch_spec_witness :
  meetings st2 !! "m1" = Some (set_status (Some "accepted") meeting1)
  ∧ (refreshVirtualPitch object_id env3 st2 "u1" "m1").1 =
    json (BPitch {| pitch_meetingId := "m1"; pitch_title := Some "Pitch";
                    pitch_virtualPitchRoomId := Some "pitch-2000-7d1w9e";
                    pitch_virtualPitchUrl :=
                      "/virtual-pitch/pitch-2000-7d1w9e" |})
  ∧ Some (gen_virtualPitchRoomId env3)
    ≠ virtualPitchRoomId (set_status (Some "accepted") meeting1)
  ∧ refreshVirtualPitch object_id env3 st2 "u1" "m9"
    = (not_found_not_accepted_or_unauthorized, st2)
  ∧ refreshVirtualPitch object_id env3 st2 "u1" "no-such-id"
    = (error_refreshing, st2).
Proof.
  split; [exact st2_meeting1|].
  destruct (proj2 (proj2 (refreshVirtualPitch_spec object_id env3 st2 "u1" "m1"))
              (set_status (Some "accepted") meeting1) st2_meeting1
              eq_refl (or_introl eq_refl)) as (Hrun & _ & Hdiff).
  split; [rewrite Hrun; reflexivity|].
  split; [apply (Hdiff env1); [reflexivity|left; discriminate]|].
  split.
  - apply (proj1 (proj2 (refreshVirtualPitch_spec object_id env3 st2 "u1" "m9"))).
    + intros (m & Hm & _). vm_compute in Hm. discriminate Hm.
    + right. reflexivity.
  - apply (proj1 (proj2 (refreshVirtualPitch_spec object_id env3 st2 "u1"
                           "no-such-id"))).
    + intros (m & Hm & _). vm_compute in Hm. discriminate Hm.
    + vm_compute. reflexivity.
    + reflexivity.
Defined.

(** Bob sends an empty link, then a real one. *)
Lemma updateMeetingLink_link_witness :
  meetings st1 !! "m1" = Some meeting1
  ∧ participant "u2" meeting1
  ∧ (updateMeetingLink object_id st1 "u2" "m1" (Some "")).2 = st1
  ∧ ∃ m', meetings
            (updateMeetingLink object_id st1 "u2" "m1"
               (Some "https://zoom.us/j/1")).2
            !! "m1" = Some m'
          ∧ meetingLink m' = Some "https://zoom.us/j/1"
          ∧ same_but_meetingLink meeting1 m'.
Proof.
  assert (Hpart : participant "u2" meeting1) by (right; reflexivity).
  split; [exact st1_meeting1|]. split; [exact Hpart|]. split.
  - apply (proj1 (updateMeetingLink_link object_id st1 "u2" "m1" (Some "")
                    meeting1 st1_meeting1 Hpart)).
    right; reflexivity.
  - apply (proj2 (updateMeetingLink_link object_id st1 "u2" "m1"
                    (Some "https://zoom.us/j/1") meeting1 st1_meeting1 Hpart)
             "https://zoom.us/j/1"); [reflexivity|discriminate].
Defined.

(** * Further properties of the routes *)

(** ** Helper lemmas *)

Lemma elem_of_Meeting_find_sorted (P : Meeting → Prop) `{∀ m, Decision (P m)}
    (ms : gmap string Meeting) id m :
  (id, m) ∈ Meeting_find_sorted P ms ↔ ms !! id = Some m ∧ P m.
Proof.
  unfold Meeting_find_sorted.
  rewrite merge_sort_Permutation, list_elem_of_filter, elem_of_map_to_list.
  simpl. tauto.
Qed.

Lemma code_201_PostMeeting validate casts env st r :
  code (handle validate casts env st r).1 = 201%N → ∃ caller b, r = PostMeeting caller b.
Proof.
  destruct r; simpl; eauto.
  - discriminate.
  - unfold setStatus. destruct (negb _); [discriminate|].
    destruct (Meeting_findOne _ _ _ _) as [[?|]|]; discriminate.
  - unfold updateMeetingLink. destruct (Meeting_findOne _ _ _ _) as [[?|]|]; discriminate.
  - discriminate.
  - unfold getVirtualPitchInfo. destruct (Meeting_findOne _ _ _ _) as [[?|]|]; discriminate.
  - unfold refreshVirtualPitch. destruct (Meeting_findOne _ _ _ _) as [[?|]|]; discriminate.
Qed.

Lemma createMeeting_not_created validate env st caller b :
  code (createMeeting validate env st caller b).1 ≠ 201%N →
  (createMeeting validate env st caller b).2 = st.
Proof.
  unfold createMeeting.
  destruct (User_findOne_email _ _); [|done].
  destruct (Meeting_create _ _ _ _); [|done].
  intros []. done.
Qed.

Lemma Effect_users_run validate casts reqs st :
  users (run validate casts st reqs) = users st.
Proof.
  revert st. induction reqs as [|[env r] reqs IH]; intros st; [done|].
  simpl. rewrite IH. eapply Effect_users, handle_Effect.
Qed.

(** ** Isolation of the meetings of other users *)



(** ** Fields that never change *)

Lemma same_identity_refl m : same_identity m m.
Proof. by repeat split. Qed.

Lemma same_identity_trans m1 m2 m3 :
  same_identity m1 m2 → same_identity m2 m3 → same_identity m1 m3.
Proof. unfold same_identity. intros ? ?. intuition congruence. Qed.

Lemma Effect_same_identity env st r st' id m :
  Effect env st r st' →
  meetings st !! id = Some m →
  ∃ m', meetings st' !! id = Some m' ∧ same_identity m m'.
Proof.
  intros Heff Hm.
  destruct Heff as [r|caller b m0 Hfree _ _ _
    |caller meetingId newStatus m0 m' Hm0 _ _ Hm' _
    |caller meetingId newLink m0 Hm0 _ _
    |caller meetingId m0 Hm0 _ _];
    [eauto using same_identity_refl|..];
    rewrite lookup_Meeting_save; case_decide as Hid;
    eauto using same_identity_refl; subst.
  - congruence.
  - assert (m0 = m) as -> by congruence. eexists. split; [done|].
    destruct Hm' as [->|(_ & _ & ->)]; by repeat split.
  - assert (m0 = m) as -> by congruence. eexists. split; [done|].
    by repeat split.
  - assert (m0 = m) as -> by congruence. eexists. split; [done|].
    by repeat split.
Qed.

(** X2.  Whatever requests are served, a stored meeting stays stored and keeps
    its two participants, its title, description, date and duration and
    its creation time: the routes only ever assign [status],
    [meetingLink] and [virtualPitchRoomId]. *)
Theorem run_same_identity validate casts reqs st id m :
  meetings st !! id = Some m →
  ∃ m', meetings (run validate casts st reqs) !! id = Some m' ∧ same_identity m m'.
Proof.
  revert st m. induction reqs as [|[env r] reqs IH]; intros st m Hm; simpl.
  - eauto using same_identity_refl.
  - destruct (Effect_same_identity _ _ _ _ _ _
                (handle_Effect validate casts env st r) Hm) as (m1 & Hm1 & H1).
    destruct (IH _ _ Hm1) as (m' & Hm' & H').
    eauto using same_identity_trans.
Qed.

(** ** Number of meetings *)

Lemma Meeting_save_size_Some id m st :
  is_Some (meetings st !! id) →
  size (meetings (Meeting_save id m st)) = size (meetings st).
Proof. intros Hsome. unfold Meeting_save. simpl. by apply map_size_insert_Some. Qed.

Lemma Effect_size_other env st r st' :
  Effect env st r st' →
  (∀ c b, r ≠ PostMeeting c b) →
  size (meetings st') = size (meetings st).
Proof.
  destruct 1 as [r|caller b m0 Hfree _ _ _| | |]; intros Hr; [done|..];
    [by destruct (Hr caller b)|apply Meeting_save_size_Some; eauto..].
Qed.

Global Instance is_PostMeeting_dec r : Decision (∃ c b, r = PostMeeting c b).
Proof.
  destruct r; [right|left; eauto|right..]; intros (? & ? & [=]).
Defined.

(** X3.  Serving a request adds one meeting when the answer is 201 Created and
    leaves the number of meetings as it is otherwise; no request removes
    the id of a stored meeting. *)
Theorem handle_size validate casts env st r :
  size (meetings (handle validate casts env st r).2) =
    (if decide (code (handle validate casts env st r).1 = 201%N)
     then S (size (meetings st)) else size (meetings st))
  ∧ dom (meetings st) ⊆ dom (meetings (handle validate casts env st r).2).
Proof.
  split.
  - case_decide as Hcode.
    + destruct (code_201_PostMeeting _ _ _ _ _ Hcode) as (caller & b & ->).
      simpl in *.
      destruct (createMeeting validate env st caller b) as [resp st'] eqn:Hrun.
      destruct (createMeeting_created _ _ _ _ _ _ _ Hrun Hcode)
        as (u & m & _ & Hfree & _ & _ & _ & _ & _ & _ & -> & _).
      simpl. by apply map_size_insert_None.
    + destruct (decide (∃ c b, r = PostMeeting c b)) as [(c & b & ->)|Hr].
      * simpl in *. by rewrite createMeeting_not_created.
      * apply (Effect_size_other env st r); [apply handle_Effect|].
        intros c b ->. apply Hr. eauto.
  - intros id [m Hm]%elem_of_dom. apply elem_of_dom.
    destruct (Effect_same_identity _ _ _ _ _ _
                (handle_Effect validate casts env st r) Hm) as (m' & -> & _).
    eauto.
Qed.

(** ** Meetings written by the routes *)

Lemma gen_meetingLink_truthy env : truthy (Some (gen_meetingLink env)) = true.
Proof. unfold truthy. apply bool_decide_eq_true. discriminate. Qed.

Lemma Effect_well_formed env st r st' :
  Effect env st r st' →
  (∀ c b, r ≠ PostMeeting c b) →
  (∀ id m, meetings st !! id = Some m → well_formed (users st) m) →
  ∀ id m, meetings st' !! id = Some m → well_formed (users st) m.
Proof.
  intros Heff Hr Hinv.
  destruct Heff as [r|caller b m0 Hfree _ _ _
    |caller meetingId newStatus m0 m' Hm0 _ Hvalid Hm' _
    |caller meetingId newLink m0 Hm0 _ Hlink
    |caller meetingId m0 Hm0 _ _]; [done|by destruct (Hr caller b)|..];
    intros id m; rewrite lookup_Meeting_save; case_decide as Hid;
    try (by apply Hinv); intros [= <-];
    destruct (Hinv _ _ Hm0) as (Hst & Hl & Hroom & Hu).
  - assert (status m' = newStatus ∧ meetingLink m' = meetingLink m0
            ∧ requestedTo m' = requestedTo m0) as (Hs' & Hl' & Hto').
    { destruct Hm' as [->|(_ & _ & ->)]; done. }
    split; [rewrite Hs'; destruct Hvalid as [->| ->]; auto|].
    split; [by rewrite Hl'|]. split; [|by rewrite Hto'].
    destruct Hm' as [->|(_ & _ & ->)]; [done|by eexists].
  - by repeat split.
  - repeat split; [done..|by eexists|done].
Qed.

Lemma handle_well_formed validate casts env st r :
  (∀ id m, meetings st !! id = Some m → well_formed (users st) m) →
  ∀ id m, meetings (handle validate casts env st r).2 !! id = Some m →
    well_formed (users st) m.
Proof.
  intros Hinv.
  destruct (decide (∃ c b, r = PostMeeting c b)) as [(c & b & ->)|Hr].
  - simpl.
    destruct (decide (code (createMeeting validate env st c b).1 = 201%N))
      as [Hcode|Hcode]; [|by rewrite createMeeting_not_created].
    destruct (createMeeting validate env st c b) as [resp st'] eqn:Hrun.
    destruct (createMeeting_created _ _ _ _ _ _ _ Hrun Hcode)
      as (u & m0 & Hu & _ & _ & _ & Hto & Hst & Hl & Hroom & -> & _).
    apply User_findOne_email_Some in Hu as [Hu _].
    intros id m. cbn [snd]. rewrite lookup_Meeting_save.
    case_decide; [intros [= <-]|by apply Hinv].
    split; [auto|]. split; [rewrite Hl; apply gen_meetingLink_truthy|].
    split; [by eexists|]. by exists u.
  - eapply Effect_well_formed; [apply handle_Effect| |done].
    intros c b ->. apply Hr. eauto.
Qed.

Lemma run_well_formed validate casts reqs st :
  (∀ id m, meetings st !! id = Some m → well_formed (users st) m) →
  ∀ id m, meetings (run validate casts st reqs) !! id = Some m →
    well_formed (users st) m.
Proof.
  revert st. induction reqs as [|[env r] reqs IH]; intros st Hinv; [done|].
  simpl. intros id m Hm.
  rewrite <-(Effect_users _ _ _ _ (handle_Effect validate casts env st r)).
  revert id m Hm. apply IH.
  rewrite (Effect_users _ _ _ _ (handle_Effect validate casts env st r)).
  by apply handle_well_formed.
Qed.

Lemma reachable_all_well_formed validate casts st :
  reachable validate casts st →
  ∀ id m, meetings st !! id = Some m → well_formed (users st) m.
Proof.
  intros (us & reqs & ->). rewrite Effect_users_run.
  apply run_well_formed. intros id m. unfold fresh_store. simpl.
  by rewrite lookup_empty.
Qed.

(** X4.  In a store the routes can reach from one without meetings, every
    meeting has a status among pending, accepted and declined, a non-empty
    [meetingLink], a [virtualPitchRoomId] of the generated form
    pitch-<clock>-<suffix>, and a [requestedTo] that is the id of a user
    of the directory. *)
Theorem reachable_well_formed validate casts st id m :
  reachable validate casts st →
  meetings st !! id = Some m →
  well_formed (users st) m.
Proof. intros Hreach. by apply (reachable_all_well_formed validate casts). Qed.

(** X5.  In a reachable store the pitch information of a meeting, asked by one
    of its participants, always carries a generated room id and the URL
    built from it: the ["/virtual-pitch/undefined"] of a meeting without
    room id does not occur. *)
Theorem getVirtualPitchInfo_reachable validate casts st caller meetingId m :
  reachable validate casts st →
  meetings st !! meetingId = Some m →
  participant caller m →
  ∃ env0,
    getVirtualPitchInfo casts st caller meetingId =
      (json (BPitch
         {| pitch_meetingId := meetingId;
            pitch_title := title m;
            pitch_virtualPitchRoomId := Some (gen_virtualPitchRoomId env0);
            pitch_virtualPitchUrl :=
              "/virtual-pitch/" +:+ gen_virtualPitchRoomId env0 |}), st).
Proof.
  intros Hreach Hm Hpart.
  destruct (reachable_all_well_formed _ _ _ Hreach _ _ Hm)
    as (_ & _ & [env0 Hroom] & _).
  exists env0. unfold getVirtualPitchInfo.
  assert (Meeting_findOne casts meetingId (participant caller) (meetings st)
      = Resolves (Some m))
    as -> by by apply Meeting_findOne_Some.
  unfold pitch_info. by rewrite Hroom.
Qed.

(** ** How the routes compose *)

Lemma Meeting_findOne_save casts id (P : Meeting → Prop) `{∀ m, Decision (P m)}
    m (ms : gmap string Meeting) :
  P m → Meeting_findOne casts id P (<[id:=m]> ms) = Resolves (Some m).
Proof.
  intros Hp. apply Meeting_findOne_Some. split; [|done].
  apply lookup_insert_eq.
Qed.

Lemma Meeting_findOne_Meeting_save casts id (P : Meeting → Prop)
    `{∀ m, Decision (P m)} m st :
  P m →
  Meeting_findOne casts id P (meetings (Meeting_save id m st))
    = Resolves (Some m).
Proof. apply Meeting_findOne_save. Qed.

(** Load the document that was just saved. *)
Ltac find_saved :=
  first [ rewrite Meeting_findOne_save by done
        | rewrite Meeting_findOne_Meeting_save by done ].

Lemma Meeting_save_save id m m' st :
  Meeting_save id m' (Meeting_save id m st) = Meeting_save id m' st.
Proof.
  unfold Meeting_save, with_meetings. simpl. by rewrite insert_insert_eq.
Qed.

(** X6.  Sending the same status change a second time changes nothing and is
    answered as the first time, whoever the caller, whatever the status
    and the meeting id, and whatever the clock and the random numbers of
    the two requests. *)
Theorem setStatus_idempotent casts env env' st caller meetingId newStatus :
  setStatus casts env' (setStatus casts env st caller meetingId newStatus).2
    caller meetingId newStatus
  = setStatus casts env st caller meetingId newStatus.
Proof.
  unfold setStatus at 2 3.
  destruct (includes _ newStatus) eqn:Hin; simpl.
  2: { unfold setStatus. by rewrite Hin. }
  destruct (Meeting_findOne _ _ _ (meetings st)) as [[m|]|] eqn:Hfind; simpl.
  2, 3: unfold setStatus; by rewrite Hin, Hfind.
  apply Meeting_findOne_Some in Hfind as [Hm Hto].
  unfold setStatus. rewrite Hin. simpl.
  destruct (bool_decide (newStatus = Some "accepted")) eqn:Hacc; simpl.
  - destruct (truthy (virtualPitchRoomId m)) eqn:Hroom; simpl.
    + find_saved. simpl.
      rewrite Hroom. simpl. by rewrite Meeting_save_save.
    + find_saved. simpl.
      by rewrite Meeting_save_save.
  - find_saved. simpl.
    by rewrite Meeting_save_save.
Qed.

(** X7.  The last link wins: after any link update by a participant, a
    non-empty link sent by a participant gives the store and the answer it
    would have given without the earlier update. *)
Theorem updateMeetingLink_overwrites casts st caller1 caller2 meetingId
    link1 link2 m :
  meetings st !! meetingId = Some m →
  participant caller1 m →
  participant caller2 m →
  truthy link2 = true →
  updateMeetingLink casts (updateMeetingLink casts st caller1 meetingId link1).2
    caller2 meetingId link2
  = updateMeetingLink casts st caller2 meetingId link2.
Proof.
  intros Hm Hp1 Hp2 Hl2. unfold updateMeetingLink.
  assert (∀ c, participant c m →
    Meeting_findOne casts meetingId (participant c) (meetings st)
        = Resolves (Some m)) as Hfind
    by (intros; by apply Meeting_findOne_Some).
  rewrite !Hfind by done. simpl.
  destruct (truthy link1); find_saved;
    rewrite Hl2; simpl; by rewrite Meeting_save_save.
Qed.

(** X8.  After a refresh, the pitch information read by any participant is the
    answer the refresh gave, and reading it changes nothing. *)
Theorem getVirtualPitchInfo_after_refresh casts env st caller reader meetingId m :
  meetings st !! meetingId = Some m →
  status m = Some "accepted" →
  participant caller m →
  participant reader m →
  getVirtualPitchInfo casts (refreshVirtualPitch casts env st caller meetingId).2
    reader meetingId
  = refreshVirtualPitch casts env st caller meetingId.
Proof.
  intros Hm Hacc Hcaller Hreader. unfold refreshVirtualPitch.
  assert (Meeting_findOne casts meetingId
            (λ m, status m = Some "accepted" ∧ participant caller m)
            (meetings st)
                = Resolves (Some m)) as -> by by apply Meeting_findOne_Some.
  simpl. unfold getVirtualPitchInfo.
  by find_saved.
Qed.

(** X9.  Acceptance opens the refresh and refusal closes it: once the
    [requestedTo] participant has accepted, either participant can refresh
    the pitch room; once it has declined, a refresh is answered 404 and
    changes nothing. *)
Theorem refreshVirtualPitch_after_setStatus casts env env' st caller
    meetingId m :
  meetings st !! meetingId = Some m →
  participant caller m →
  code (refreshVirtualPitch casts env'
          (setStatus casts env st (requestedTo m) meetingId (Some "accepted")).2
          caller meetingId).1 = 200%N
  ∧ refreshVirtualPitch casts env'
      (setStatus casts env st (requestedTo m) meetingId (Some "declined")).2
      caller meetingId
    = (not_found_not_accepted_or_unauthorized,
       (setStatus casts env st (requestedTo m) meetingId (Some "declined")).2).
Proof.
  intros Hm Hpart. unfold setStatus. simpl.
  assert (Meeting_findOne casts meetingId
            (λ m0, requestedTo m0 = requestedTo m) (meetings st)
          = Resolves (Some m)) as -> by by apply Meeting_findOne_Some.
  simpl. split.
  - unfold refreshVirtualPitch.
    destruct (truthy (virtualPitchRoomId m)); simpl;
      by find_saved.
  - unfold refreshVirtualPitch.
    match goal with |- context [Meeting_findOne ?c ?i ?P ?ms] =>
      assert (Meeting_findOne c i P ms = Resolves None) as ->; [|done] end.
    apply Meeting_findOne_None. split.
    + intros m' Hm' [Hacc _].
      rewrite lookup_Meeting_save, decide_True in Hm' by done.
      injection Hm' as <-. discriminate.
    + rewrite lookup_Meeting_save, decide_True by done. discriminate.
Qed.

(** ** Creating a meeting *)

(** X10.  [createMeeting] answers 201, 400 or 404.  Unless it answers 201 the
    store is unchanged, and it never answers 201 when the new id is
    already taken, so no stored meeting is overwritten.  When it answers
    201, the document stored under the new id is the one returned; it
    passed validation, is requested by the caller, carries the title,
    description, date and duration of the request and the creation time
    of the environment, is pending, and has the generated link and pitch
    room id. *)
Theorem createMeeting_outcomes validate env st caller b :
  (code (createMeeting validate env st caller b).1 = 201%N
   ∨ code (createMeeting validate env st caller b).1 = 400%N
   ∨ code (createMeeting validate env st caller b).1 = 404%N)
  ∧ (code (createMeeting validate env st caller b).1 ≠ 201%N →
     (createMeeting validate env st caller b).2 = st)
  ∧ (is_Some (meetings st !! new_id env) →
     code (createMeeting validate env st caller b).1 ≠ 201%N)
  ∧ (code (createMeeting validate env st caller b).1 = 201%N →
     ∃ m,
       meetings (createMeeting validate env st caller b).2 !! new_id env
         = Some m
       ∧ body (createMeeting validate env st caller b).1
         = BMeeting (populate (users st) (new_id env) m)
       ∧ validate m = true
       ∧ requestedBy m = caller
       ∧ title m = body_title b ∧ description m = body_description b
       ∧ dateTime m = body_dateTime b ∧ duration m = body_duration b
       ∧ createdAt m = timestamp env
       ∧ status m = Some "pending"
       ∧ meetingLink m = Some (gen_meetingLink env)
       ∧ virtualPitchRoomId m = Some (gen_virtualPitchRoomId env)).
Proof.
  unfold createMeeting, Meeting_create.
  destruct (User_findOne_email _ _) as [u|]; simpl.
  2: { repeat split; auto; discriminate. }
  match goal with |- context [validate ?d] => set (m := d) end.
  destruct (validate m) eqn:Hvalid; simpl.
  2: { repeat split; auto; discriminate. }
  destruct (meetings st !! new_id env) eqn:Hfree; simpl.
  { repeat split; auto; discriminate. }
  split; [auto|]. split; [done|]. split; [by intros [? [=]]|].
  intros _. exists m. rewrite lookup_insert_eq. by repeat split.
Qed.

(** X11.  A meeting that has just been created is, as it was returned, in the
    list of meetings of the caller and in that of the user the email
    resolved to. *)
Theorem createMeeting_listed validate env st caller b :
  code (createMeeting validate env st caller b).1 = 201%N →
  ∃ u view,
    User_findOne_email (email b) (users st) = Some u
    ∧ body (createMeeting validate env st caller b).1 = BMeeting view
    ∧ ∀ who, who = caller ∨ who = user_id u →
        ∃ l, body (listForCaller
                     (createMeeting validate env st caller b).2 who).1
               = BMeetings l
             ∧ view ∈ l.
Proof.
  intros Hcode.
  destruct (createMeeting validate env st caller b) as [resp st'] eqn:Hrun.
  destruct (createMeeting_created _ _ _ _ _ _ _ Hrun Hcode)
    as (u & m & Hu & Hfree & _ & Hby & Hto & _ & _ & _ & -> & ->).
  exists u, (populate (users st) (new_id env) m).
  split; [done|]. split; [done|].
  intros who Hwho. eexists. split; [reflexivity|].
  apply list_elem_of_fmap. exists (new_id env, m). split; [done|].
  apply elem_of_Meeting_find_sorted. split.
  - apply lookup_insert_eq.
  - unfold participant. destruct Hwho as [->| ->]; auto.
Qed.

Lemma User_findById_Some id us u :
  User_findById id us = Some u → u ∈ us ∧ user_id u = id.
Proof.
  unfold User_findById. intros [Hu Hb]%find_some.
  apply list_elem_of_In in Hu. by apply bool_decide_eq_true in Hb.
Qed.

Lemma User_findById_None id us :
  User_findById id us = None ↔ ∀ u, u ∈ us → user_id u ≠ id.
Proof.
  unfold User_findById. split.
  - intros Hnone u Hu%list_elem_of_In.
    pose proof (find_none _ _ Hnone u Hu) as Hb. simpl in Hb.
    by apply bool_decide_eq_false in Hb.
  - intros Hall. destruct (find _ us) as [u|] eqn:Hfind; [|done].
    apply find_some in Hfind as [Hu%list_elem_of_In Hb].
    apply bool_decide_eq_true in Hb. by destruct (Hall u Hu).
Qed.

Lemma NoDup_user_id_inj us u u' :
  NoDup (user_id <$> us) → u ∈ us → u' ∈ us → user_id u = user_id u' → u = u'.
Proof.
  induction us as [|x us IH]; simpl; [by intros _ ?%elem_of_nil|].
  intros [Hx Hnd]%NoDup_cons [->|Hu]%elem_of_cons [->|Hu']%elem_of_cons Hid.
  - done.
  - destruct Hx. rewrite Hid. by apply list_elem_of_fmap_2.
  - destruct Hx. rewrite <-Hid. by apply list_elem_of_fmap_2.
  - by apply IH.
Qed.

(** X12.  In the answer to a successful creation the target is always
    populated; when the ids of the directory are distinct it is the user
    found by email, so its email is the email of the request.  The
    requester is left unpopulated exactly when no user of the directory
    has the caller's id. *)
Theorem createMeeting_populated validate env st caller b view :
  code (createMeeting validate env st caller b).1 = 201%N →
  body (createMeeting validate env st caller b).1 = BMeeting view →
  (∃ target, view_requestedTo view = Some target
             ∧ ref_id target = requestedTo (view_doc view)
             ∧ (NoDup (user_id <$> users st) → ref_email target = email b))
  ∧ (view_requestedBy view = None ↔ ∀ u, u ∈ users st → user_id u ≠ caller).
Proof.
  intros Hcode.
  destruct (createMeeting validate env st caller b) as [resp st'] eqn:Hrun.
  destruct (createMeeting_created _ _ _ _ _ _ _ Hrun Hcode)
    as (u & m & Hu & _ & _ & Hby & Hto & _ & _ & _ & _ & ->).
  apply User_findOne_email_Some in Hu as [Hu Hemail].
  simpl. intros [= <-]. simpl. unfold populate_ref. split.
  - destruct (User_findById (requestedTo m) (users st)) as [u'|] eqn:Hfind.
    + apply User_findById_Some in Hfind as [Hu' Hid'].
      eexists. split; [done|]. simpl. split; [done|].
      intros Hnd. assert (u' = u) as -> by
        (eapply NoDup_user_id_inj; [done..|congruence]). done.
    + rewrite User_findById_None in Hfind. by destruct (Hfind u Hu).
  - rewrite Hby, <-User_findById_None.
    destruct (User_findById caller (users st)); simpl; split; done.
Qed.

(** ** Listing the other users *)

(** X13.  [listOtherUsers] answers with the projection of the users whose id is
    not the caller's, all of them and in the order of the directory; the
    caller is never in the answer, and the store is unchanged. *)
Theorem listOtherUsers_spec st caller :
  ∃ l,
    listOtherUsers st caller = (json (BUsers l), st)
    ∧ (∀ i, i ∈ l ↔ ∃ u, u ∈ users st ∧ user_id u ≠ caller ∧ i = user_info u)
    ∧ (caller ∉ info_id <$> l)
    ∧ info_id <$> l = filter (λ id, id ≠ caller) (user_id <$> users st).
Proof.
  eexists. split; [reflexivity|]. split; [|split].
  - intros i. rewrite list_elem_of_fmap. split.
    + intros (u & -> & [Hne Hu]%list_elem_of_filter). eauto.
    + intros (u & Hu & Hne & ->). exists u. split; [done|].
      by apply list_elem_of_filter.
  - rewrite <-list_fmap_compose.
    intros (u & Hid & [Hne _]%list_elem_of_filter)%list_elem_of_fmap.
    simpl in Hid. congruence.
  - induction (users st) as [|u us IH]; [done|].
    rewrite fmap_cons, !filter_cons. simpl.
    destruct (decide (user_id u ≠ caller)); [|done].
    rewrite !fmap_cons. simpl. by f_equal.
Qed.

(** ** Generated tokens *)

Lemma substring_length n m s :
  String.length (String.substring n m s) = m `min` (String.length s - n).
Proof.
  revert n m. induction s as [|c s IH]; intros [|n] [|m];
    cbn [String.substring String.length]; rewrite ?IH; lia.
Qed.

Lemma string_length_app s t :
  String.length (s +:+ t) = String.length s + String.length t.
Proof.
  induction s as [|c s IH]; [done|].
  rewrite string_app_cons. simpl. by rewrite IH.
Qed.

Lemma string_length_0 s : String.length s = 0 → s = "".
Proof. by destruct s. Qed.

Lemma substring_skip a n b :
  String.substring (String.length a) n (a +:+ b) = String.substring 0 n b.
Proof.
  induction a as [|c a IH]; [done|].
  rewrite string_app_cons. cbn [String.length String.substring]. done.
Qed.

Lemma substring_prefix b c :
  String.substring 0 (String.length b) (b +:+ c) = b.
Proof.
  induction b as [|x b IH]; [by destruct c|].
  rewrite string_app_cons. cbn [String.length String.substring].
  by rewrite IH.
Qed.

Lemma substring_all n b :
  (String.length b ≤ n)%nat → String.substring 0 n b = b.
Proof.
  revert n. induction b as [|x b IH]; intros [|n] Hn;
    cbn [String.length String.substring] in *; try done; [lia|].
  rewrite IH; [done|lia].
Qed.

(** [s.substring(k)] drops the first [k] characters. *)
Lemma js_substring_from a b k :
  String.length a = k → js_substring (a +:+ b) k None = b.
Proof.
  intros <-. unfold js_substring. rewrite string_length_app.
  replace ((String.length a `min` (String.length a + String.length b))
             `min` (String.length a + String.length b))
    with (String.length a) by lia.
  replace (_ - _) with (String.length b) by lia.
  rewrite substring_skip. by apply substring_all.
Qed.

(** [s.substring(k, e)] keeps the [e - k] characters after the first
    [k]. *)
Lemma js_substring_between a b c k e :
  String.length a = k → k + String.length b = e →
  js_substring (a +:+ b +:+ c) k (Some e) = b.
Proof.
  intros <- <-. unfold js_substring. rewrite !string_length_app.
  replace ((String.length a `min` _) `min` _) with (String.length a) by lia.
  replace (_ - _) with (String.length b) by lia.
  rewrite substring_skip. apply substring_prefix.
Qed.

(** [s.substring(k, e)] with [e] beyond the end keeps what follows the
    first [k] characters. *)
Lemma js_substring_to_end a b k e :
  String.length a = k → (k + String.length b ≤ e)%nat →
  js_substring (a +:+ b) k (Some e) = b.
Proof.
  intros <- He. unfold js_substring. rewrite string_length_app.
  replace ((String.length a `min` _) `min` _) with (String.length a) by lia.
  replace (_ - _) with (String.length b) by lia.
  rewrite substring_skip. by apply substring_all.
Qed.

Lemma js_substring_short s k e :
  (String.length s ≤ k)%nat →
  (∀ e', e = Some e' → (k ≤ e')%nat) →
  js_substring s k e = "".
Proof.
  intros Hk He. apply string_length_0. unfold js_substring.
  rewrite substring_length.
  destruct e as [e'|]; [specialize (He e' eq_refl)|]; lia.
Qed.

(** X14.  The generated meeting link is the prefix
    https://meet.google.com/ followed by what is left of the base-36
    rendering of the random number after its first seven characters; when
    the rendering has seven characters or fewer the link has no random
    part at all.  The generated pitch room id is pitch-, the clock
    reading in decimal, a dash, and the third to eighth characters of the
    rendering of the random number, or those there are when it is
    shorter.  Hence the lengths: 24 plus what is left for the link, and
    a suffix of at most six characters for the room id. *)
Theorem generated_tokens env :
  (∀ skipped rest,
     random_link env = skipped +:+ rest → String.length skipped = 7 →
     gen_meetingLink env = "https://meet.google.com/" +:+ rest)
  ∧ ((String.length (random_link env) ≤ 7)%nat →
     gen_meetingLink env = "https://meet.google.com/")
  ∧ (∀ skipped kept rest,
     random_pitch env = skipped +:+ kept +:+ rest →
     String.length skipped = 2 → String.length kept = 6 →
     gen_virtualPitchRoomId env
       = "pitch-" +:+ pretty (date_now env) +:+ "-" +:+ kept)
  ∧ (∀ skipped kept,
     random_pitch env = skipped +:+ kept →
     String.length skipped = 2 → (String.length kept ≤ 6)%nat →
     gen_virtualPitchRoomId env
       = "pitch-" +:+ pretty (date_now env) +:+ "-" +:+ kept)
  ∧ ((String.length (random_pitch env) ≤ 2)%nat →
     gen_virtualPitchRoomId env = "pitch-" +:+ pretty (date_now env) +:+ "-")
  ∧ String.length (gen_meetingLink env)
    = 24 + (String.length (random_link env) - 7)
  ∧ String.length (gen_virtualPitchRoomId env)
    = 7 + String.length (pretty (date_now env))
      + 6 `min` (String.length (random_pitch env) - 2).
Proof.
  unfold gen_meetingLink, gen_virtualPitchRoomId.
  split; [|split; [|split; [|split; [|split; [|split]]]]].
  - intros skipped rest -> Hs. by rewrite js_substring_from.
  - intros Hshort. by rewrite js_substring_short.
  - intros skipped kept rest -> Hs Hk.
    rewrite (js_substring_between skipped kept rest 2 8); [done|done|lia].
  - intros skipped kept -> Hs Hk.
    rewrite (js_substring_to_end skipped kept 2 8); [done|done|lia].
  - intros Hshort. rewrite js_substring_short; [done|done|].
    intros e' [= <-]. lia.
  - unfold js_substring.
    rewrite !string_length_app, !substring_length. cbn [String.length]. lia.
  - unfold js_substring.
    rewrite !string_length_app, !substring_length. cbn [String.length]. lia.
Qed.

(** ** The connection bootstrap *)

(** X17.  [connectDB] always starts by logging the connection string and then
    tries to connect.  It lists the collections exactly when the
    connection succeeded.  It leaves the process only with code 1, once,
    as its last action and right after logging "Error: " followed by the
    message of the error the connection or the listing rejected with, and
    it does so exactly when one of them failed. *)
Theorem connectDB_trace uri connect :
  ∃ rest,
    Db.connectDB uri connect =
      Db.Log [Db.AString "Attempting to connect to MongoDB..."]
      :: Db.Log [Db.AString "MongoDB URI:"; Db.AValue uri]
      :: Db.Connect uri :: rest
    ∧ (Db.ListCollections ∈ rest ↔ ∃ conn, connect uri = inl conn)
    ∧ (∀ c, Db.Exit c ∈ rest ↔
         c = 1%N ∧
         ∃ message,
           (connect uri = inr message
            ∨ ∃ conn, connect uri = inl conn
                      ∧ Db.listCollections conn = inr message))
    ∧ (∀ c, Db.Exit c ∈ rest →
         ∃ message before,
           (connect uri = inr message
            ∨ ∃ conn, connect uri = inl conn
                      ∧ Db.listCollections conn = inr message)
           ∧ rest = (before
                       ++ [Db.LogError [Db.AString ("Error: " +:+ message)];
                           Db.Exit 1])%list
           ∧ ∀ e c', e ∈ before → e ≠ Db.Exit c').
Proof.
  unfold Db.connectDB, Db.on_error.
  destruct (connect uri) as [conn|message] eqn:Hconn.
  - destruct (Db.listCollections conn) as [collections|message] eqn:Hlist.
    + eexists. split; [reflexivity|]. simpl. split; [|split].
      * split; [eauto|]. intros _. rewrite !elem_of_cons. auto.
      * intros c. rewrite !elem_of_cons, elem_of_nil. split.
        -- intros [|[|[|[]]]]; discriminate.
        -- intros (_ & message & [[=]|(conn' & [= <-] & Hl)]). congruence.
      * intros c. rewrite !elem_of_cons, elem_of_nil.
        intros [|[|[|[]]]]; discriminate.
    + eexists. split; [reflexivity|]. simpl. split; [|split].
      * split; [eauto|]. intros _. rewrite !elem_of_cons. auto.
      * intros c. rewrite !elem_of_cons, elem_of_nil. split.
        -- intros [|[|[|[[= ->]|[]]]]]; try discriminate. split; [done|].
           exists message. right. eauto.
        -- intros (-> & _). auto.
      * intros c _. exists message.
        exists [Db.Log [Db.AString ("MongoDB Connected: " +:+ Db.host conn)];
                Db.ListCollections].
        split; [right; eauto|]. split; [done|].
        intros e c'. rewrite !elem_of_cons, elem_of_nil.
        intros [->|[->|[]]]; discriminate.
  - eexists. split; [reflexivity|]. simpl. split; [|split].
    + rewrite !elem_of_cons, elem_of_nil. split.
      * intros [|[|[]]]; discriminate.
      * intros (conn & [=]).
    + intros c. rewrite !elem_of_cons, elem_of_nil. split.
      * intros [|[[= ->]|[]]]; try discriminate. split; [done|].
        exists message. by left.
      * intros (-> & _). auto.
    + intros c _. exists message, []. split; [by left|]. split; [done|].
      intros e c' []%elem_of_nil.
Qed.

(** ** Which request changes which field *)

(** X15.  The link of a stored meeting changes only through [updateMeetingLink]
    by one of its participants, to the non-empty link of the request.
    Its pitch room id changes only to the id generated for the request,
    through [refreshVirtualPitch] by a participant of the accepted
    meeting, or through an acceptance by its [requestedTo] participant
    when the meeting had no room id. *)
Theorem field_changes validate casts env st r id m :
  meetings st !! id = Some m →
  ∃ m', meetings (handle validate casts env st r).2 !! id = Some m'
    ∧ (meetingLink m' ≠ meetingLink m →
       ∃ caller newLink,
         r = PatchMeeting caller id newLink ∧ participant caller m
         ∧ truthy newLink = true ∧ meetingLink m' = newLink)
    ∧ (virtualPitchRoomId m' ≠ virtualPitchRoomId m →
       virtualPitchRoomId m' = Some (gen_virtualPitchRoomId env)
       ∧ ((∃ caller, r = PatchRefreshVirtualPitch caller id
                     ∧ participant caller m ∧ status m = Some "accepted")
          ∨ (r = PatchStatus (requestedTo m) id (Some "accepted")
             ∧ truthy (virtualPitchRoomId m) = false))).
Proof.
  intros Hm. pose proof (handle_Effect validate casts env st r) as Heff.
  destruct Heff as [r|caller b m0 Hfree _ _ _
    |caller meetingId newStatus m0 m' Hm0 Hto Hvalid Hm' _
    |caller meetingId newLink m0 Hm0 Hpart Hlink
    |caller meetingId m0 Hm0 Hpart Hacc];
    [by exists m|..];
    rewrite lookup_Meeting_save; case_decide as Hid;
    try (by exists m); subst.
  - congruence.
  - assert (m0 = m) as -> by congruence. exists m'. split; [done|].
    destruct Hm' as [->|(-> & Hroom & ->)]; simpl; split; try done.
    intros _. split; [done|]. by right.
  - assert (m0 = m) as -> by congruence. eexists. split; [done|]. simpl.
    split; [eauto 10|done].
  - assert (m0 = m) as -> by congruence. eexists. split; [done|]. simpl.
    split; [done|]. intros _. split; [done|]. left. eauto.
Qed.

(** ** Answers and store agree *)

(** X16.  Whatever the request, a meeting in the answer is the meeting the
    store holds under that id once the request is served, and a pitch
    room id in the answer is the one stored. *)
Theorem response_reflects_store validate casts env st r :
  (∀ view, body (handle validate casts env st r).1 = BMeeting view →
     meetings (handle validate casts env st r).2 !! view_id view
       = Some (view_doc view))
  ∧ (∀ l view, body (handle validate casts env st r).1 = BMeetings l →
       view ∈ l →
       meetings (handle validate casts env st r).2 !! view_id view
         = Some (view_doc view))
  ∧ (∀ p, body (handle validate casts env st r).1 = BPitch p →
       virtualPitchRoomId <$>
         meetings (handle validate casts env st r).2 !! pitch_meetingId p
       = Some (pitch_virtualPitchRoomId p)).
Proof.
  destruct r as [c|c b|c i ns|c i l|c|c i|c i]; simpl.
  - split; [done|]. split; [|done].
    intros l view [= <-] ([id m] & -> & Hin)%list_elem_of_fmap. simpl.
    by apply elem_of_Meeting_find_sorted in Hin as [Hm _].
  - unfold createMeeting, Meeting_create.
    destruct (User_findOne_email _ _); [|done].
    destruct (validate _); [|done].
    destruct (meetings st !! new_id env); [done|]. simpl.
    split; [|done]. intros view [= <-]. simpl. apply lookup_insert_eq.
  - unfold setStatus. destruct (negb _); [done|].
    destruct (Meeting_findOne _ _ _ _) as [[?|]|]; [|done..]. simpl.
    split; [|done]. intros view [= <-]. simpl. apply lookup_insert_eq.
  - unfold updateMeetingLink.
    destruct (Meeting_findOne _ _ _ _) as [[?|]|]; [|done..]. simpl.
    split; [|done]. intros view [= <-]. simpl. apply lookup_insert_eq.
  - done.
  - unfold getVirtualPitchInfo.
    destruct (Meeting_findOne _ _ _ _) as [[m|]|] eqn:Hfind; [|done..].
    apply Meeting_findOne_Some in Hfind as [Hm _]. simpl.
    split; [done|]. split; [done|]. intros p [= <-]. simpl. by rewrite Hm.
  - unfold refreshVirtualPitch.
    destruct (Meeting_findOne _ _ _ _) as [[?|]|]; [|done..]. simpl.
    split; [done|]. split; [done|]. intros p [= <-]. simpl.
    by rewrite lookup_insert_eq.
Qed.

(** * The further properties on the running example *)

Import Scenario.

(** Alice sees her two meetings, the newer first; Bob sees his one. *)
Example scenario_lists :
  (∃ l, body (listForCaller st3 "u1").1 = BMeetings l
        ∧ view_id <$> l = ["m3"; "m1"])
  ∧ (∃ l, body (listForCaller st3 "u2").1 = BMeetings l
          ∧ view_id <$> l = ["m1"]).
Proof. split; eexists; (split; [reflexivity|]); vm_compute; reflexivity. Qed.

(** A database that answers, and one that refuses the connection. *)
Example scenario_connectDB :
  last (Db.connectDB (Some "mongodb://db/arthankur") atlas)
    = Some (Db.Log [Db.AString "Available collections:";
                    Db.ANames ["users"; "meetings"]])
  ∧ Db.connectDB None unreachable
    = [Db.Log [Db.AString "Attempting to connect to MongoDB..."];
       Db.Log [Db.AString "MongoDB URI:"; Db.AValue None];
       Db.Connect None;
       Db.LogError [Db.AString "Error: connect ECONNREFUSED"];
       Db.Exit 1].
Proof. split; reflexivity. Qed.



(** The meeting of [st1] through an acceptance, a new link and a refresh. *)
Lemma run_same_identity_witness :
  meetings st1 !! "m1" = Some meeting1
  ∧ ∃ m', meetings
            (run accept_all object_id st1
               [(env1, PatchStatus "u2" "m1" (Some "accepted"));
                (env3, PatchMeeting "u1" "m1" (Some "https://zoom.us/j/1"));
                (env3, PatchRefreshVirtualPitch "u1" "m1")]) !! "m1"
          = Some m'
        ∧ same_identity meeting1 m'.
Proof.
  split; [exact st1_meeting1|].
  exact (run_same_identity accept_all object_id _ st1 "m1" meeting1 st1_meeting1).
Defined.

(** The accepted meeting of [st2]. *)
Lemma reachable_well_formed_witness :
  reachable accept_all object_id st2
  ∧ meetings st2 !! "m1" = Some meeting2
  ∧ well_formed (users st2) meeting2.
Proof.
  split; [exact st2_reachable|]. split; [exact st2_meeting1|].
  exact (reachable_well_formed accept_all object_id st2 "m1" meeting2
           st2_reachable st2_meeting1).
Defined.

(** Alice reads the pitch information of the accepted meeting. *)
Lemma getVirtualPitchInfo_reachable_witness :
  ∃ env0,
    getVirtualPitchInfo object_id st2 "u1" "m1" =
      (json (BPitch
         {| pitch_meetingId := "m1";
            pitch_title := title meeting2;
            pitch_virtualPitchRoomId := Some (gen_virtualPitchRoomId env0);
            pitch_virtualPitchUrl :=
              "/virtual-pitch/" +:+ gen_virtualPitchRoomId env0 |}), st2).
Proof.
  exact (getVirtualPitchInfo_reachable accept_all object_id st2 "u1" "m1" meeting2
           st2_reachable st2_meeting1 (or_introl eq_refl)).
Defined.

(** Alice sets a link, then Bob sets another. *)
Lemma updateMeetingLink_overwrites_witness :
  updateMeetingLink
    object_id (updateMeetingLink object_id st1 "u1" "m1" (Some "https://zoom.us/j/1")).2
    "u2" "m1" (Some "https://zoom.us/j/2")
  = updateMeetingLink object_id st1 "u2" "m1" (Some "https://zoom.us/j/2").
Proof.
  exact (updateMeetingLink_overwrites object_id st1 "u1" "u2" "m1"
           (Some "https://zoom.us/j/1") (Some "https://zoom.us/j/2") meeting1
           st1_meeting1 (or_introl eq_refl) (or_intror eq_refl) eq_refl).
Defined.

(** Bob refreshes, Alice reads. *)
Lemma getVirtualPitchInfo_after_refresh_witness :
  getVirtualPitchInfo object_id (refreshVirtualPitch object_id env3 st2 "u2" "m1").2 "u1" "m1"
  = refreshVirtualPitch object_id env3 st2 "u2" "m1".
Proof.
  exact (getVirtualPitchInfo_after_refresh object_id env3 st2 "u2" "u1" "m1" meeting2
           st2_meeting1 eq_refl (or_intror eq_refl) (or_introl eq_refl)).
Defined.

(** Bob accepts or declines, then Alice asks for a refresh. *)
Lemma refreshVirtualPitch_after_setStatus_witness :
  code (refreshVirtualPitch object_id env3
          (setStatus object_id env1 st1 "u2" "m1" (Some "accepted")).2 "u1" "m1").1
    = 200%N
  ∧ refreshVirtualPitch object_id env3
      (setStatus object_id env1 st1 "u2" "m1" (Some "declined")).2 "u1" "m1"
    = (not_found_not_accepted_or_unauthorized,
       (setStatus object_id env1 st1 "u2" "m1" (Some "declined")).2).
Proof.
  exact (refreshVirtualPitch_after_setStatus object_id env1 env3 st1 "u1" "m1" meeting1
           st1_meeting1 (or_introl eq_refl)).
Defined.

Lemma create_m1_code :
  code (createMeeting accept_all env1 st0 "u1" (pitch_body "bob@x.com")).1
  = 201%N.
Proof. vm_compute. reflexivity. Defined.

(** The meeting Alice creates is in her list and in Bob's. *)
Lemma createMeeting_listed_witness :
  ∃ u view,
    User_findOne_email "bob@x.com" directory = Some u
    ∧ body (createMeeting accept_all env1 st0 "u1"
              (pitch_body "bob@x.com")).1 = BMeeting view
    ∧ ∀ who, who = "u1" ∨ who = user_id u →
        ∃ l, body (listForCaller
                     (createMeeting accept_all env1 st0 "u1"
                        (pitch_body "bob@x.com")).2 who).1
               = BMeetings l
             ∧ view ∈ l.
Proof.
  exact (createMeeting_listed accept_all env1 st0 "u1"
           (pitch_body "bob@x.com") create_m1_code).
Defined.

(** Both participants of the meeting Alice creates are populated. *)
Lemma createMeeting_populated_witness :
  (∃ target,
     view_requestedTo (populate directory "m1" meeting1) = Some target
     ∧ ref_id target = requestedTo meeting1
     ∧ (NoDup (user_id <$> directory) → ref_email target = "bob@x.com"))
  ∧ (view_requestedBy (populate directory "m1" meeting1) = None ↔
     ∀ u, u ∈ directory → user_id u ≠ "u1").
Proof.
  exact (createMeeting_populated accept_all env1 st0 "u1"
           (pitch_body "bob@x.com") (populate directory "m1" meeting1)
           create_m1_code eq_refl).
Defined.

(** Bob accepts a meeting whose room id was generated at creation: the
    room id and the link stay. *)
Lemma field_changes_witness :
  meetings st1 !! "m1" = Some meeting1
  ∧ ∃ m', meetings
            (handle accept_all object_id env3 st1
               (PatchStatus "u2" "m1" (Some "accepted"))).2 !! "m1"
          = Some m'
        ∧ meetingLink m' = meetingLink meeting1
        ∧ virtualPitchRoomId m' = virtualPitchRoomId meeting1.
Proof.
  split; [exact st1_meeting1|].
  destruct (field_changes accept_all object_id env3 st1
              (PatchStatus "u2" "m1" (Some "accepted")) "m1" meeting1
              st1_meeting1) as (m' & Hm' & Hlink & Hroom).
  exists m'. split; [exact Hm'|]. split.
  - destruct (decide (meetingLink m' = meetingLink meeting1)) as [Heq|Hne];
      [exact Heq|].
    destruct (Hlink Hne) as (c & l & Hr & _). discriminate Hr.
  - destruct (decide (virtualPitchRoomId m' = virtualPitchRoomId meeting1))
      as [Heq|Hne]; [exact Heq|].
    destruct (Hroom Hne) as (_ & [(c & Hr & _)|(_ & Hfalsy)]);
      discriminate.
Defined.

(** The tokens generated in the environment [env1]: the link keeps what
    follows the first seven characters of 0.4fzyo82mvyr, the room id the
    third to eighth characters of 0.9x3k2p7q1zd. *)
Lemma generated_tokens_witness :
  gen_meetingLink env1 = "https://meet.google.com/82mvyr"
  ∧ gen_virtualPitchRoomId env1 = "pitch-1000-9x3k2p".
Proof.
  destruct (generated_tokens env1) as (Hlink & _ & Hroom & _).
  split.
  - exact (Hlink "0.4fzyo" "82mvyr" eq_refl eq_refl).
  - exact (Hroom "0." "9x3k2p" "7q1zd" eq_refl eq_refl eq_refl).
Defined.
